(** * Fuel-consumption derivation of the traficar scripts

    Shallow embedding of the three consumption derivations of the
    repository:
    - [calculate_consumption_from_readings] (calculate_fuel_consumption.py),
      the batch scan over a table of readings;
    - [calculate_consumption] / [save_current_state] / [load_previous_state]
      (monitor_traficar.py), the polling path with a saved state file;
    - [calculate_fuel_consumption] (read_database.py), the database scan.

    Python floats are modelled as exact rationals [Q]; a missing (NaN)
    float cell of a pandas table is modelled as [None]. Timestamps are
    integers (seconds). The module [F64] repeats the three pair tests on
    IEEE binary64 values (Rocq's primitive floats), as Python computes
    them, for the behaviour at the 0.1 boundary. *)

From Stdlib Require Import List Bool ZArith QArith String Ascii Permutation Sorted Lia Lqa.
From Stdlib Require PrimFloat Uint63.
Import ListNotations.
Open Scope Z_scope.

(** ** Numbers *)

(** Strict comparison [x < y] of two Python floats. *)
Definition Qltb (x y : Q) : bool := negb (Qle_bool y x).

(** The literal [0.1] of the three derivations. *)
Definition threshold : Q := 1 # 10.

(** Comparison [a < b] where a side may be NaN: always false then. *)
Definition nan_lt (a b : option Q) : bool :=
  match a, b with
  | Some x, Some y => Qltb x y
  | _, _ => false
  end.

(** [f"{x:.2f}"] read back by [float(...)]: round half to even at two
    decimals, on the exact rational [x]. Python rounds the double that
    holds [x], so the two can differ when [x] is a two-decimal tie such as
    0.505 (its double is slightly above 0.505 and Python writes 0.51). *)
Definition round2 (x : Q) : Q :=
  let n := (Qnum x * 100)%Z in
  let d := Zpos (Qden x) in
  let q := (n / d)%Z in
  let r := (n mod d)%Z in
  let z :=
    if (2 * r <? d)%Z then q
    else if (d <? 2 * r)%Z then (q + 1)%Z
    else if Z.even q then q else (q + 1)%Z in
  z # 100.

(** ** Sorting helpers *)

(** Stable insertion sort by timestamp: [sort_values('timestamp')] and
    [ORDER BY timestamp]. [sort_by] inserts each element ahead of the
    already sorted later elements whose key is equal or larger, so
    elements with equal keys keep their input order. *)
Section InsertSort.
Variable A : Type.
Variable key : A -> Z.

Fixpoint insert_by (x : A) (l : list A) : list A :=
    match l with
    | [] => [x]
    | y :: tl => if (key x <=? key y)%Z then x :: y :: tl else y :: insert_by x tl
    end.

Fixpoint sort_by (l : list A) : list A :=
    match l with
    | [] => []
    | x :: tl => insert_by x (sort_by tl)
    end.
End InsertSort.

Arguments insert_by {A} key x l.
Arguments sort_by {A} key l.

(** Insertion into a sorted list of distinct keys. *)
Fixpoint insert_key (x : Z) (l : list Z) : list Z :=
  match l with
  | [] => [x]
  | y :: tl =>
      if (x <? y)%Z then x :: y :: tl
      else if (x =? y)%Z then y :: tl
      else y :: insert_key x tl
  end.

(** Sorted distinct keys: the group keys of [groupby] / [GROUP BY]. *)
Definition unique_keys (l : list Z) : list Z := fold_right insert_key [] l.

(** ** Batch derivation: calculate_fuel_consumption.py *)

Module Batch.

(** One row of [all_readings.csv]. *)
Record Reading := mkReading {
  timestamp : Z;
  car_id : Z;
  car_name : string;
  model_type : Z;
  fuel_liters : option Q;
  available : bool
}.

(** One row of the consumption data frame. *)
Record Event := mkEvent {
  ev_timestamp : Z;
  ev_car_id : Z;
  ev_car_name : string;
  ev_model_type : Z;
  consumption_liters : Q;
  prev_fuel_liters : Q;
  curr_fuel_liters : Q;
  time_diff_minutes : Q;
  prev_timestamp : Z
}.

(** Body of the loop [for i in range(len(car_data) - 1)] on the pair
    [prev_row = car_data.iloc[i]], [curr_row = car_data.iloc[i + 1]]. *)
Definition pair_event (cid : Z) (prev_row curr_row : Reading) : option Event :=
  if available prev_row && nan_lt (fuel_liters curr_row) (fuel_liters prev_row) then
    match fuel_liters prev_row, fuel_liters curr_row with
    | Some prev_fuel, Some curr_fuel =>
        let consumption := (prev_fuel - curr_fuel)%Q in
        if Qltb threshold consumption then
          Some (mkEvent (timestamp curr_row) cid (car_name curr_row)
                  (model_type curr_row) consumption prev_fuel curr_fuel
                  (inject_Z (timestamp curr_row - timestamp prev_row) / inject_Z 60)%Q
                  (timestamp prev_row))
        else None
    | _, _ => None
    end
  else None.

Definition option_list {T} (o : option T) : list T :=
  match o with Some x => [x] | None => [] end.

(** The loop over consecutive readings of one car. *)
Fixpoint scan (cid : Z) (car_data : list Reading) : list Event :=
  match car_data with
  | prev_row :: ((curr_row :: _) as tl) =>
      option_list (pair_event cid prev_row curr_row) ++ scan cid tl
  | _ => []
  end.

(** [df.groupby('car_id')]: sorted keys; each group keeps input order. *)
Definition group_keys (df : list Reading) : list Z := unique_keys (map car_id df).

Definition group (df : list Reading) (cid : Z) : list Reading :=
  filter (fun r => (car_id r =? cid)%Z) df.

(** [car_data.sort_values('timestamp')]. *)
Definition sorted_group (df : list Reading) (cid : Z) : list Reading :=
  sort_by timestamp (group df cid).

Definition calculate_consumption_from_readings (df : list Reading) : list Event :=
  flat_map (fun cid => scan cid (sorted_group df cid)) (group_keys df).

End Batch.

(** ** Polling derivation: monitor_traficar.py *)

Module Poll.

(** A Python dict with integer keys, as an association list. Reading
    returns the value of the key; writing overwrites it in place or adds
    the key at the end. *)
Definition dict (V : Type) := list (Z * V).

Fixpoint dict_get {V} (k : Z) (d : dict V) : option V :=
  match d with
  | [] => None
  | (k', v) :: tl => if (k =? k')%Z then Some v else dict_get k tl
  end.

Fixpoint dict_set {V} (k : Z) (v : V) (d : dict V) : dict V :=
  match d with
  | [] => [(k, v)]
  | (k', v') :: tl => if (k =? k')%Z then (k, v) :: tl else (k', v') :: dict_set k v tl
  end.

(** An entry of the model table [models[id]]. *)
Record Model := mkModel {
  name : string;
  type : Z;
  maxFuel : Q
}.

(** An entry of the [cars] list of the fleet API. [fuel] is a percentage. *)
Record Car := mkCar {
  id : Z;
  modelId : Z;
  fuel : Q;
  car_available : bool
}.

(** A row of [last_state.csv] as [save_current_state] writes it: the
    liters column holds the text [f"{fuel_liters:.2f}"], which
    [load_previous_state] reads back with [float], i.e. the value rounded
    to two decimals. *)
Record StateRow := mkStateRow {
  row_id : Z;
  row_fuel_percent : Q;
  row_fuel_liters : Q;
  row_available : bool;
  row_model_id : Z
}.

(** An entry [previous_state[car_id]]. *)
Record Prev := mkPrev {
  prev_fuel_percent : Q;
  prev_fuel_liters : Q;
  prev_available : bool;
  prev_model_id : Z
}.

Record PollEvent := mkPollEvent {
  pe_car_id : Z;
  pe_consumption : Q;
  pe_car_name : string;
  pe_model_type : Z;
  pe_prev_fuel : Q;
  pe_curr_fuel : Q
}.

(** [models[model_id]['type'] in [1, 2]]. *)
Definition type_ok (m : Model) : bool := ((type m =? 1) || (type m =? 2))%Z.

(** [(car['fuel'] / 100.0) * max_fuel]. *)
Definition to_liters (fuel_percent max_fuel : Q) : Q := (fuel_percent / 100 * max_fuel)%Q.

Definition save_row (models : dict Model) (car : Car) : list StateRow :=
  match dict_get (modelId car) models with
  | None => []
  | Some m =>
      if negb (type_ok m) then []
      else [mkStateRow (id car) (fuel car) (round2 (to_liters (fuel car) (maxFuel m)))
              (car_available car) (modelId car)]
  end.

(** [save_current_state(cars, models)]: the new content of the state
    file (opened with mode 'w'). *)
Definition save_current_state (cars : list Car) (models : dict Model) : list StateRow :=
  flat_map (save_row models) cars.

(** [load_previous_state()] on a state file in the current format. *)
Definition load_previous_state (rows : list StateRow) : dict Prev :=
  fold_left (fun state row =>
      dict_set (row_id row)
        (mkPrev (row_fuel_percent row) (row_fuel_liters row) (row_available row)
           (row_model_id row)) state)
    rows [].

(** The loop body of [calculate_consumption] for one current car. *)
Definition car_event (previous_state : dict Prev) (models : dict Model) (car : Car)
    : option PollEvent :=
  match dict_get (modelId car) models with
  | None => None
  | Some m =>
      if negb (type_ok m) then None
      else
        match dict_get (id car) previous_state with
        | None => None
        | Some prev =>
            let curr_fuel_liters := to_liters (fuel car) (maxFuel m) in
            let prev_fuel_liters := prev_fuel_liters prev in
            if prev_available prev && Qltb curr_fuel_liters prev_fuel_liters then
              let consumption := (prev_fuel_liters - curr_fuel_liters)%Q in
              if Qltb threshold consumption then
                Some (mkPollEvent (id car) consumption (name m) (type m)
                        prev_fuel_liters curr_fuel_liters)
              else None
            else None
        end
  end.

Definition calculate_consumption (previous_state : dict Prev) (current_cars : list Car)
    (models : dict Model) : list PollEvent :=
  flat_map (fun car => Batch.option_list (car_event previous_state models car)) current_cars.

(** One run of [main] after the models are known: load the previous
    state, compute the events when it is non-empty, save the new state. *)
Definition poll_cycle (state_file : list StateRow) (models : dict Model)
    (current_cars : list Car) : list PollEvent * list StateRow :=
  let previous_state := load_previous_state state_file in
  let events :=
    match previous_state with
    | [] => []
    | _ => calculate_consumption previous_state current_cars models
    end in
  (events, save_current_state current_cars models).

End Poll.

(** ** Database derivation: read_database.py *)

Module Db.

(** A row of [car_readings]; [fuel] is the raw percentage. *)
Record DbRow := mkDbRow {
  db_timestamp : Z;
  db_car_id : Z;
  db_fuel : Q;
  db_available : bool
}.

Record DbEvent := mkDbEvent {
  de_car_id : Z;
  de_consumption : Q;
  de_prev_ts : Z;
  de_curr_ts : Z
}.

(** [SELECT car_id, COUNT( * ) ... GROUP BY car_id HAVING cnt > 1]. *)
Definition cars_with_data (db : list DbRow) : list (Z * nat) :=
  filter (fun p => (1 <? snd p)%nat)
    (map (fun c => (c, List.length (filter (fun r => (db_car_id r =? c)%Z) db)))
       (unique_keys (map db_car_id db))).

(** [SELECT timestamp, fuel, available ... WHERE car_id = ? ORDER BY timestamp]. *)
Definition readings (db : list DbRow) (cid : Z) : list DbRow :=
  sort_by db_timestamp (filter (fun r => (db_car_id r =? cid)%Z) db).

Definition db_pair_event (cid : Z) (prev curr : DbRow) : option DbEvent :=
  if db_available prev && Qltb (db_fuel curr) (db_fuel prev) then
    let consumption := (db_fuel prev - db_fuel curr)%Q in
    if Qltb threshold consumption then
      Some (mkDbEvent cid consumption (db_timestamp prev) (db_timestamp curr))
    else None
  else None.

Fixpoint db_scan (cid : Z) (rs : list DbRow) : list DbEvent :=
  match rs with
  | prev :: ((curr :: _) as tl) =>
      Batch.option_list (db_pair_event cid prev curr) ++ db_scan cid tl
  | _ => []
  end.

(** [for car_id, _ in cars_with_data[:10]]. *)
Definition calculate_fuel_consumption (db : list DbRow) : list DbEvent :=
  flat_map (fun p => db_scan (fst p) (readings db (fst p))) (firstn 10 (cars_with_data db)).

End Db.

(** ** Auxiliary notions used in the statements *)

Module Notions.
Import Batch.

(** The three conditions of the batch loop on a pair, as propositions. *)
Definition emits (prev_row curr_row : Reading) : Prop :=
  available prev_row = true /\
  exists prev_fuel curr_fuel,
    fuel_liters prev_row = Some prev_fuel /\ fuel_liters curr_row = Some curr_fuel /\
    (curr_fuel < prev_fuel)%Q /\ (threshold < prev_fuel - curr_fuel)%Q.

Definition with_available (b : bool) (r : Reading) : Reading :=
  mkReading (timestamp r) (car_id r) (car_name r) (model_type r) (fuel_liters r) b.

Definition with_model_type (t : Z) (r : Reading) : Reading :=
  mkReading (timestamp r) (car_id r) (car_name r) t (fuel_liters r) (available r).

Definition ev_with_model_type (t : Z) (e : Event) : Event :=
  mkEvent (ev_timestamp e) (ev_car_id e) (ev_car_name e) t (consumption_liters e)
    (prev_fuel_liters e) (curr_fuel_liters e) (time_diff_minutes e) (prev_timestamp e).

(** A reading with no fuel value (a NaN cell). *)
Definition malformed (r : Reading) : bool :=
  match fuel_liters r with None => true | Some _ => false end.

(** A row of the state file as the entry [load_previous_state] stores. *)
Definition prev_of (row : Poll.StateRow) : Poll.Prev :=
  Poll.mkPrev (Poll.row_fuel_percent row) (Poll.row_fuel_liters row)
    (Poll.row_available row) (Poll.row_model_id row).

(** A car that [save_current_state] and [calculate_consumption] keep:
    its model id is in the table and the model type is 1 or 2. *)
Definition valid_car (models : Poll.dict Poll.Model) (car : Poll.Car) : bool :=
  match Poll.dict_get (Poll.modelId car) models with
  | Some m => Poll.type_ok m
  | None => false
  end.

End Notions.

(** ** Sample inputs *)

Module Samples.
Import Batch.

(** Two readings of car 7: 40 L available, then 30 L unavailable. *)
Definition c1_r1 : Reading := mkReading 100 7 "Fiat 500" 1 (Some 40%Q) true.
Definition c1_r2 : Reading := mkReading 700 7 "Fiat 500" 1 (Some 30%Q) false.

(** Model 3 has a 50 L tank; car 7 reads 80 % then 60 %. *)
Definition c3_models : Poll.dict Poll.Model := [(3, Poll.mkModel "Fiat 500" 1 50)].
Definition c3_car1 : Poll.Car := Poll.mkCar 7 3 80 true.
Definition c3_car2 : Poll.Car := Poll.mkCar 7 3 60 true.

(** A vehicle whose readings carry model type 3. *)
Definition c4_df : list Reading :=
  [mkReading 0 5 "Bus" 3 (Some 30%Q) true; mkReading 600 5 "Bus" 3 (Some 20%Q) true].

(** A 10.07 L tank read at 5 % then 4 %: 0.5035 L then 0.4028 L. *)
Definition c5_models : Poll.dict Poll.Model := [(1, Poll.mkModel "Van" 1 (1007 # 100))].
Definition c5_car1 : Poll.Car := Poll.mkCar 1 1 5 true.
Definition c5_car2 : Poll.Car := Poll.mkCar 1 1 4 true.

(** A 45.25 L tank read at 41 % then 40 %: 18.5525 L then 18.1 L. *)
Definition c5b_models : Poll.dict Poll.Model := [(1, Poll.mkModel "Van" 1 (4525 # 100))].
Definition c5b_car1 : Poll.Car := Poll.mkCar 1 1 41 true.
Definition c5b_car2 : Poll.Car := Poll.mkCar 1 1 40 true.

(** Three readings of car 1, the middle one without a fuel value. *)
Definition c6_a : Reading := mkReading 0 1 "Fiat 500" 1 (Some 10%Q) true.
Definition c6_m : Reading := mkReading 60 1 "Fiat 500" 1 None true.
Definition c6_c : Reading := mkReading 120 1 "Fiat 500" 1 (Some 5%Q) true.

(** Eleven cars, each with two readings and a 10 % drop. *)
Definition c9_db : list Db.DbRow :=
  flat_map (fun c => [Db.mkDbRow 0 c 50 true; Db.mkDbRow 60 c 40 true])
    (map Z.of_nat (seq 1 11)).

(** Car 7 is seen, then missing from a poll, then seen with a drop. *)
Definition c10_poll2 : list Poll.Car := [Poll.mkCar 8 3 50 true].

End Samples.

(** ** Further code of monitor_traficar.py *)

Module Monitor.
Import Poll.

(** A line of [consumption.csv]: the header, or one event written with
    [f"{...:.2f}"] for its three amounts. *)
Inductive LogLine :=
| LogHeader
| LogRow (ts : string) (car_id : Z) (car_name : string) (model_type : Z)
    (consumption prev_fuel curr_fuel : Q).

Definition log_row (timestamp : string) (e : PollEvent) : LogLine :=
  LogRow timestamp (pe_car_id e) (pe_car_name e) (pe_model_type e)
    (round2 (pe_consumption e)) (round2 (pe_prev_fuel e)) (round2 (pe_curr_fuel e)).

(** [append_consumption_log(timestamp, events)] on the log file, [None]
    when the file does not exist. *)
Definition append_consumption_log (timestamp : string) (consumption_events : list PollEvent)
    (file : option (list LogLine)) : option (list LogLine) :=
  match consumption_events with
  | [] => file
  | _ =>
      let existing := match file with Some lines => lines | None => [LogHeader] end in
      Some (existing ++ map (log_row timestamp) consumption_events)
  end.

(** A dict with string keys ([model_consumption]). *)
Fixpoint sdict_get {V} (k : string) (d : list (string * V)) : option V :=
  match d with
  | [] => None
  | (k', v) :: tl => if String.eqb k k' then Some v else sdict_get k tl
  end.

Fixpoint sdict_set {V} (k : string) (v : V) (d : list (string * V)) : list (string * V) :=
  match d with
  | [] => [(k, v)]
  | (k', v') :: tl => if String.eqb k k' then (k, v) :: tl else (k', v') :: sdict_set k v tl
  end.

(** [{'count': ..., 'liters': ...}]. *)
Record Tally := mkTally { count : nat; liters : Q }.

(** One step of the breakdown loop of [main]. *)
Definition add_event (model_consumption : list (string * Tally)) (event : PollEvent)
    : list (string * Tally) :=
  let nm := pe_car_name event in
  let mc :=
    match sdict_get nm model_consumption with
    | None => sdict_set nm (mkTally 0 0) model_consumption
    | Some _ => model_consumption
    end in
  match sdict_get nm mc with
  | Some t => sdict_set nm (mkTally (S (count t)) (liters t + pe_consumption event)%Q) mc
  | None => mc
  end.

Definition model_breakdown (consumption_events : list PollEvent) : list (string * Tally) :=
  fold_left add_event consumption_events [].

(** [sum(e['consumption'] for e in consumption_events)], as an exact sum
    (Python adds doubles in event order). *)
Definition total_consumption (consumption_events : list PollEvent) : Q :=
  fold_left (fun acc e => (acc + pe_consumption e)%Q) consumption_events 0%Q.

Definition sum_counts (mc : list (string * Tally)) : nat :=
  fold_right (fun p acc => (count (snd p) + acc)%nat) 0%nat mc.

Definition sum_liters (mc : list (string * Tally)) : Q :=
  fold_right (fun p acc => (liters (snd p) + acc)%Q) 0%Q mc.

(** The header [save_current_state] writes. *)
Definition state_header : list string :=
  ["id"; "fuel_percent"; "fuel_liters"; "available"; "model_id"]%string.

Definition has_column (header : list string) (c : string) : bool :=
  existsb (String.eqb c) header.

(** [load_previous_state()] with its old-format check: the first row of
    a file whose header misses a new column makes it return [{}]. *)
Definition load_state_file (state_file : option (list string * list StateRow)) : dict Prev :=
  match state_file with
  | None => []
  | Some (header, rows) =>
      match rows with
      | [] => []
      | _ =>
          if has_column header "fuel_percent"%string && has_column header "fuel_liters"%string
             && has_column header "model_id"%string
          then load_previous_state rows else []
      end
  end.

(** One run of [main] once the models and cars are fetched: returns the
    new state file and the new log file. *)
Definition monitor_main (models : dict Model) (current_cars : list Car)
    (state_file : option (list string * list StateRow)) (log : option (list LogLine))
    (timestamp : string) : (list string * list StateRow) * option (list LogLine) :=
  let previous_state := load_state_file state_file in
  let log' :=
    match previous_state with
    | [] => log
    | _ => append_consumption_log timestamp
             (calculate_consumption previous_state current_cars models) log
    end in
  ((state_header, save_current_state current_cars models), log').

(** Keys of a Python dict: [int] or [str]. *)
Inductive PyKey := KInt (z : Z) | KStr (s : string).

Fixpoint pos_digits (fuel : nat) (z : Z) (acc : string) : string :=
  match fuel with
  | O => acc
  | S f =>
      let acc' := String (ascii_of_nat (48 + Z.to_nat (z mod 10))) acc in
      if (z <? 10)%Z then acc' else pos_digits f (z / 10)%Z acc'
  end.

(** [str(z)]. *)
Definition z_decimal (z : Z) : string :=
  match z with
  | Z0 => "0"%string
  | Zpos p => pos_digits (Pos.size_nat p) (Zpos p) EmptyString
  | Zneg p => String "-"%char (pos_digits (Pos.size_nat p) (Zpos p) EmptyString)
  end.

(** The table [get_car_models] builds from the API:
    [models[int(model['id'])] = ...]. *)
Definition api_table (models : dict Model) : list (PyKey * Model) :=
  map (fun p => (KInt (fst p), snd p)) models.

(** [json.dump] then [json.load] of the cache: keys become strings. *)
Definition json_key (k : PyKey) : PyKey :=
  match k with KInt z => KStr (z_decimal z) | KStr s => KStr s end.

Definition json_roundtrip (d : list (PyKey * Model)) : list (PyKey * Model) :=
  map (fun p => (json_key (fst p), snd p)) d.

(** The entries that [model_id in models] and [models[model_id]] can
    find with an integer [model_id]: an [int] never equals a [str]. *)
Definition int_view (d : list (PyKey * Model)) : dict Model :=
  flat_map (fun p => match fst p with KInt z => [(z, snd p)] | KStr _ => [] end) d.

(** The entry [load_previous_state] reads back for a car saved by
    [save_current_state], if any. *)
Definition saved_prev (models : dict Model) (car : Car) : option Prev :=
  match dict_get (modelId car) models with
  | Some m =>
      if type_ok m
      then Some (mkPrev (fuel car) (round2 (to_liters (fuel car) (maxFuel m)))
                   (car_available car) (modelId car))
      else None
  | None => None
  end.

(** The log file holds the header once, as its first line. *)
Definition log_well_formed (file : option (list LogLine)) : Prop :=
  file = None \/ exists rows, file = Some (LogHeader :: rows) /\ ~ In LogHeader rows.

Definition is_row (l : LogLine) : bool := match l with LogHeader => false | _ => true end.

(** Number of event rows in the log file. *)
Definition data_rows (file : option (list LogLine)) : nat :=
  match file with None => 0%nat | Some lines => List.length (filter is_row lines) end.

End Monitor.

(** ** Batch output order *)

(** Events ordered by car id, then by timestamp. *)
Definition ev_le (e1 e2 : Batch.Event) : Prop :=
  (Batch.ev_car_id e1 < Batch.ev_car_id e2)%Z \/
  (Batch.ev_car_id e1 = Batch.ev_car_id e2 /\
   (Batch.ev_timestamp e1 <= Batch.ev_timestamp e2)%Z).

(** ** The pair tests in double precision *)

(** The comparisons of the three derivations on Python floats, i.e. IEEE
    binary64 values with round-to-nearest arithmetic. A NaN cell is the
    float NaN here, for which every comparison is false. *)
Module F64.
Import PrimFloat.
#[local] Set Warnings "-inexact-float".
Local Open Scope float_scope.

(** The literal [0.1]: the double nearest to 1/10. *)
Definition threshold : float := 0.1.

(** [float(z)] of an integer of at most 53 bits. *)
Definition of_Z (z : Z) : float :=
  if (z <? 0)%Z then opp (of_uint63 (Uint63.of_Z (- z))) else of_uint63 (Uint63.of_Z z).

(** A row of [all_readings.csv] with its [fuel_liters] cell as a float. *)
Record Reading := mkReading {
  timestamp : Z;
  car_id : Z;
  car_name : string;
  model_type : Z;
  fuel_liters : float;
  available : bool
}.

Record Event := mkEvent {
  ev_timestamp : Z;
  ev_car_id : Z;
  ev_car_name : string;
  ev_model_type : Z;
  consumption_liters : float;
  prev_fuel_liters : float;
  curr_fuel_liters : float;
  time_diff_minutes : float;
  prev_timestamp : Z
}.

(** Body of the loop of [calculate_consumption_from_readings] on
    [prev_row], [curr_row]. *)
Definition pair_event (cid : Z) (prev_row curr_row : Reading) : option Event :=
  let prev_fuel := fuel_liters prev_row in
  let curr_fuel := fuel_liters curr_row in
  if available prev_row && (curr_fuel <? prev_fuel) then
    let consumption := prev_fuel - curr_fuel in
    if threshold <? consumption then
      Some (mkEvent (timestamp curr_row) cid (car_name curr_row) (model_type curr_row)
              consumption prev_fuel curr_fuel
              (of_Z (timestamp curr_row - timestamp prev_row) / 60)
              (timestamp prev_row))
    else None
  else None.

(** A row of [car_readings]; [fuel] is the raw percentage. *)
Record DbRow := mkDbRow {
  db_timestamp : Z;
  db_car_id : Z;
  db_fuel : float;
  db_available : bool
}.

Record DbEvent := mkDbEvent {
  de_car_id : Z;
  de_consumption : float;
  de_prev_ts : Z;
  de_curr_ts : Z
}.

(** Body of the loop of read_database's [calculate_fuel_consumption]. *)
Definition db_pair_event (cid : Z) (prev curr : DbRow) : option DbEvent :=
  if db_available prev && (db_fuel curr <? db_fuel prev) then
    let consumption := db_fuel prev - db_fuel curr in
    if threshold <? consumption then
      Some (mkDbEvent cid consumption (db_timestamp prev) (db_timestamp curr))
    else None
  else None.

(** The polling path: model table, car, saved previous state. *)
Record Model := mkModel {
  name : string;
  type : Z;
  maxFuel : float
}.

Record Car := mkCar {
  id : Z;
  modelId : Z;
  fuel : float;
  car_available : bool
}.

Record Prev := mkPrev {
  prev_fuel_percent : float;
  prev_liters : float;
  prev_available : bool;
  prev_model_id : Z
}.

Record PollEvent := mkPollEvent {
  pe_car_id : Z;
  pe_consumption : float;
  pe_car_name : string;
  pe_model_type : Z;
  pe_prev_fuel : float;
  pe_curr_fuel : float
}.

Definition type_ok (m : Model) : bool := ((type m =? 1) || (type m =? 2))%Z.

(** [(car['fuel'] / 100.0) * max_fuel]. *)
Definition to_liters (fuel_percent max_fuel : float) : float := fuel_percent / 100 * max_fuel.

(** Body of the loop of [calculate_consumption] for one car. *)
Definition car_event (previous_state : Poll.dict Prev) (models : Poll.dict Model) (car : Car)
    : option PollEvent :=
  match Poll.dict_get (modelId car) models with
  | None => None
  | Some m =>
      if negb (type_ok m) then None
      else
        match Poll.dict_get (id car) previous_state with
        | None => None
        | Some prev =>
            let curr_fuel_liters := to_liters (fuel car) (maxFuel m) in
            let prev_fuel_liters := prev_liters prev in
            if prev_available prev && (curr_fuel_liters <? prev_fuel_liters) then
              let consumption := prev_fuel_liters - curr_fuel_liters in
              if threshold <? consumption then
                Some (mkPollEvent (id car) consumption (name m) (type m)
                        prev_fuel_liters curr_fuel_liters)
              else None
            else None
        end
  end.

(** Sample inputs: decimal drops of exactly 0.1 and of 0.1000001. *)
Definition r_at (ts : Z) (liters : float) : Reading := mkReading ts 1 "a" 1 liters true.
Definition r_1_1 : Reading := r_at 0 1.1.
Definition r_1_0 : Reading := r_at 60 1.0.
Definition r_0_2 : Reading := r_at 0 0.2.
Definition r_0_1 : Reading := r_at 60 0.1.
Definition r_1_1000001 : Reading := r_at 0 1.1000001.
Definition db_50_1 : DbRow := mkDbRow 0 1 50.1 true.
Definition db_50_0 : DbRow := mkDbRow 60 1 50.0 true.
(** A 10 L tank saved at 1.10 L, now at 10 %. *)
Definition m_10 : Poll.dict Model := [(3%Z, mkModel "Fiat 500" 1 10)].
Definition prev_1_10 : Poll.dict Prev := [(7%Z, mkPrev 11 1.10 true 3)].
Definition car_10 : Car := mkCar 7 3 10 true.

End F64.

(** ** General facts *)

Lemma Qltb_iff (x y : Q) : Qltb x y = true <-> (x < y)%Q.
Proof.
  unfold Qltb. rewrite negb_true_iff. split.
  - intro H. apply Qnot_le_lt. intro Hle. apply Qle_bool_iff in Hle. congruence.
  - intro H. destruct (Qle_bool y x) eqn:E; [|reflexivity].
    apply Qle_bool_iff in E. exfalso. apply (Qlt_not_le x y); assumption.
Qed.

Lemma Qltb_false (x y : Q) : Qltb x y = false <-> ~ (x < y)%Q.
Proof.
  rewrite <- Qltb_iff. destruct (Qltb x y); split; congruence.
Qed.

Section SortFacts.
Variable A : Type.
Variable key : A -> Z.

Lemma insert_by_perm (x : A) (l : list A) : Permutation (insert_by key x l) (x :: l).
  Proof.
    induction l as [|y tl IH]; simpl; [reflexivity|].
    destruct (key x <=? key y)%Z; [reflexivity|].
    rewrite IH. apply perm_swap.
  Qed.

Lemma sort_by_perm (l : list A) : Permutation (sort_by key l) l.
  Proof.
    induction l as [|x tl IH]; simpl; [reflexivity|].
    rewrite insert_by_perm. now apply perm_skip.
  Qed.

Lemma insert_by_map (f : A -> A) (Hf : forall a, key (f a) = key a) (x : A) (l : list A) :
    insert_by key (f x) (map f l) = map f (insert_by key x l).
  Proof.
    induction l as [|y tl IH]; simpl; [reflexivity|].
    rewrite !Hf. destruct (key x <=? key y)%Z; simpl; [reflexivity|].
    now rewrite IH.
  Qed.

Lemma sort_by_map (f : A -> A) (Hf : forall a, key (f a) = key a) (l : list A) :
    sort_by key (map f l) = map f (sort_by key l).
  Proof.
    induction l as [|x tl IH]; simpl; [reflexivity|].
    rewrite IH. now apply insert_by_map.
  Qed.
End SortFacts.

Lemma insert_key_In (x z : Z) (l : list Z) : In z (insert_key x l) <-> z = x \/ In z l.
Proof.
  induction l as [|y tl IH]; simpl; [intuition congruence|].
  destruct (x <? y)%Z eqn:E1; simpl; [intuition congruence|].
  destruct (x =? y)%Z eqn:E2; simpl.
  - apply Z.eqb_eq in E2. subst. intuition congruence.
  - rewrite IH. intuition congruence.
Qed.

Lemma unique_keys_In (z : Z) (l : list Z) : In z (unique_keys l) <-> In z l.
Proof.
  induction l as [|x tl IH]; simpl; [tauto|].
  unfold unique_keys in *. simpl. rewrite insert_key_In, IH. intuition.
Qed.

Lemma insert_key_sorted (x : Z) (l : list Z) :
  StronglySorted Z.lt l -> StronglySorted Z.lt (insert_key x l).
Proof.
  induction l as [|y tl IH]; intro Hs; simpl.
  - repeat constructor.
  - apply StronglySorted_inv in Hs as [Hs Hf].
    destruct (x <? y)%Z eqn:E1.
    + apply Z.ltb_lt in E1. constructor; [now constructor|].
      constructor; [assumption|].
      rewrite Forall_forall in *. intros w Hw. specialize (Hf w Hw). lia.
    + destruct (x =? y)%Z eqn:E2; [now constructor|].
      apply Z.ltb_ge in E1. apply Z.eqb_neq in E2.
      constructor; [now apply IH|].
      rewrite Forall_forall in *. intros w Hw. apply insert_key_In in Hw as [->|Hw]; [lia|].
      now apply Hf.
Qed.

Lemma unique_keys_NoDup (l : list Z) : NoDup (unique_keys l).
Proof.
  assert (Hs : StronglySorted Z.lt (unique_keys l)).
  { induction l as [|x tl IH]; [constructor|]. now apply insert_key_sorted. }
  induction Hs as [|a tl Hs IH Hf]; constructor; [|assumption].
  rewrite Forall_forall in Hf. intro Hin. specialize (Hf a Hin). lia.
Qed.

Lemma NoDup_app_not_in {T} (l1 l2 : list T) (x : T) :
  NoDup (l1 ++ l2) -> In x l2 -> ~ In x l1.
Proof.
  induction l1 as [|y tl IH]; simpl; intros Hnd Hin; [tauto|].
  inversion Hnd as [|? ? Hny Hnd']; subst.
  intros [->|Hx].
  - apply Hny, in_or_app. now right.
  - now apply (IH Hnd' Hin).
Qed.

(** ** Facts about the batch derivation *)

Module BatchFacts.
Import Batch Notions.

Lemma pair_event_some (c : Z) (A B : Reading) (e : Event) :
  pair_event c A B = Some e ->
  available A = true /\
  exists fa fb, fuel_liters A = Some fa /\ fuel_liters B = Some fb /\
    (fb < fa)%Q /\ (threshold < fa - fb)%Q /\
    e = mkEvent (timestamp B) c (car_name B) (model_type B) (fa - fb) fa fb
          (inject_Z (timestamp B - timestamp A) / inject_Z 60)%Q (timestamp A).
Proof.
  unfold pair_event. destruct (available A); simpl; [|discriminate].
  destruct (fuel_liters A) as [fa|], (fuel_liters B) as [fb|]; simpl; try discriminate.
  destruct (Qltb fb fa) eqn:Hlt; [|discriminate].
  destruct (Qltb threshold (fa - fb)) eqn:Ht; [|discriminate].
  intro H. injection H as <-. rewrite Qltb_iff in Hlt, Ht.
  split; [reflexivity|]. exists fa, fb. repeat split; assumption.
Qed.

Lemma pair_event_emits (c : Z) (A B : Reading) :
  (exists e, pair_event c A B = Some e) <-> emits A B.
Proof.
  split.
  - intros [e He]. apply pair_event_some in He as [Ha [fa [fb (HA & HB & Hlt & Ht & _)]]].
    split; [assumption|]. exists fa, fb. auto.
  - intros [Ha [fa [fb (HA & HB & Hlt & Ht)]]].
    unfold pair_event. rewrite Ha, HA, HB. simpl.
    apply Qltb_iff in Hlt, Ht. rewrite Hlt, Ht. eexists. reflexivity.
Qed.

Lemma pair_event_none_malformed (c : Z) (A B : Reading) :
  malformed A = true \/ malformed B = true ->
  pair_event c A B = None /\ pair_event c B A = None.
Proof.
  unfold malformed, pair_event.
  intros [H|H]; destruct (fuel_liters A), (fuel_liters B); try discriminate;
    rewrite ?andb_false_r; simpl; auto.
Qed.

Lemma scan_In_pair (c : Z) (g : list Reading) (e : Event) :
  In e (scan c g) ->
  exists pre A B suf, g = pre ++ A :: B :: suf /\ pair_event c A B = Some e.
Proof.
  induction g as [|x tl IH]; simpl; [tauto|].
  destruct tl as [|y tl']; [simpl; tauto|].
  intro H. apply in_app_or in H as [H|H].
  - destruct (pair_event c x y) eqn:E; simpl in H; [|tauto].
    destruct H as [<-|[]]. exists [], x, y, tl'. auto.
  - destruct (IH H) as [pre [A [B [suf [Hg He]]]]].
    exists (x :: pre), A, B, suf. rewrite Hg. auto.
Qed.

Lemma scan_pair_In (c : Z) (pre suf : list Reading) (A B : Reading) (e : Event) :
  pair_event c A B = Some e -> In e (scan c (pre ++ A :: B :: suf)).
Proof.
  intro He. induction pre as [|p pre' IH]; simpl.
  - rewrite He. now left.
  - destruct (pre' ++ A :: B :: suf) as [|y tl] eqn:Eq.
    + destruct pre'; discriminate.
    + apply in_or_app. now right.
Qed.

Lemma scan_car_id (c : Z) (g : list Reading) (e : Event) :
  In e (scan c g) -> ev_car_id e = c.
Proof.
  intro H. apply scan_In_pair in H as [pre [A [B [suf [_ He]]]]].
  apply pair_event_some in He as [_ [fa [fb (_ & _ & _ & _ & ->)]]]. reflexivity.
Qed.

Lemma scan_cons_malformed (c : Z) (l2 : list Reading) (M : Reading) :
  malformed M = true -> scan c (M :: l2) = scan c l2.
Proof.
  intro HM. destruct l2 as [|y tl2]; [reflexivity|].
  change (scan c (M :: y :: tl2)) with
    (option_list (pair_event c M y) ++ scan c (y :: tl2)).
  destruct (pair_event_none_malformed c M y (or_introl HM)) as [-> _]. reflexivity.
Qed.

Lemma scan_app_malformed (c : Z) (l1 l2 : list Reading) (M : Reading) :
  malformed M = true -> scan c (l1 ++ M :: l2) = scan c l1 ++ scan c l2.
Proof.
  intro HM. induction l1 as [|x tl IH].
  - now apply scan_cons_malformed.
  - destruct tl as [|y tl'].
    + change (scan c ([x] ++ M :: l2)) with
        (option_list (pair_event c x M) ++ scan c (M :: l2)).
      destruct (pair_event_none_malformed c M x (or_introl HM)) as [_ ->].
      now apply scan_cons_malformed.
    + change (scan c ((x :: y :: tl') ++ M :: l2)) with
        (option_list (pair_event c x y) ++ scan c ((y :: tl') ++ M :: l2)).
      rewrite IH. change (scan c (x :: y :: tl')) with
        (option_list (pair_event c x y) ++ scan c (y :: tl')).
      now rewrite app_assoc.
Qed.

Lemma calc_In (df : list Reading) (e : Event) :
  In e (calculate_consumption_from_readings df) <->
  exists c, In c (group_keys df) /\ In e (scan c (sorted_group df c)).
Proof. unfold calculate_consumption_from_readings. apply in_flat_map. Qed.

Lemma sorted_group_In (df : list Reading) (c : Z) (r : Reading) :
  In r (sorted_group df c) <-> In r df /\ car_id r = c.
Proof.
  unfold sorted_group, group. split; intro H.
  - apply (Permutation_in _ (sort_by_perm _ _ _)) in H.
    apply filter_In in H as [H1 H2]. apply Z.eqb_eq in H2. auto.
  - apply (Permutation_in _ (Permutation_sym (sort_by_perm _ timestamp _))).
    apply filter_In. destruct H as [H1 H2]. split; [assumption|]. now apply Z.eqb_eq.
Qed.

Lemma group_keys_In (df : list Reading) (c : Z) :
  In c (group_keys df) <-> exists r, In r df /\ car_id r = c.
Proof.
  unfold group_keys. rewrite unique_keys_In, in_map_iff. firstorder.
Qed.

Lemma calc_event_pair (df : list Reading) (e : Event) :
  In e (calculate_consumption_from_readings df) ->
  exists pre A B suf,
    sorted_group df (ev_car_id e) = pre ++ A :: B :: suf /\
    pair_event (ev_car_id e) A B = Some e.
Proof.
  intro H. apply calc_In in H as [c [_ Hs]].
  pose proof (scan_car_id _ _ _ Hs) as Hc. subst c. now apply scan_In_pair.
Qed.

Lemma calc_pair_event (df : list Reading) (c : Z) (pre suf : list Reading)
    (A B : Reading) (e : Event) :
  sorted_group df c = pre ++ A :: B :: suf -> pair_event c A B = Some e ->
  In e (calculate_consumption_from_readings df).
Proof.
  intros Hg He. apply calc_In. exists c. split.
  - assert (HA : In A (sorted_group df c)) by (rewrite Hg; apply in_or_app; simpl; auto).
    apply sorted_group_In in HA as [HA Hc]. apply group_keys_In. eauto.
  - rewrite Hg. now apply scan_pair_In.
Qed.

End BatchFacts.

(** ** Facts about the polling derivation *)

Module PollFacts.
Import Poll Notions.

Lemma dict_get_set {V} (k k' : Z) (v : V) (d : dict V) :
  dict_get k (dict_set k' v d) = if (k =? k')%Z then Some v else dict_get k d.
Proof.
  induction d as [|[k0 v0] tl IH]; simpl.
  - reflexivity.
  - destruct (k' =? k0)%Z eqn:E0; simpl.
    + apply Z.eqb_eq in E0. subst k0. destruct (k =? k')%Z; reflexivity.
    + rewrite IH. destruct (k =? k0)%Z eqn:E1, (k =? k')%Z eqn:E2; try reflexivity.
      apply Z.eqb_eq in E1, E2. subst. rewrite Z.eqb_refl in E0. discriminate.
Qed.

Lemma load_fold_get (k : Z) (rows : list StateRow) (acc : dict Prev) (p : Prev) :
  dict_get k (fold_left (fun state row => dict_set (row_id row) (prev_of row) state) rows acc)
    = Some p ->
  dict_get k acc = Some p \/ exists row, In row rows /\ row_id row = k /\ p = prev_of row.
Proof.
  revert acc. induction rows as [|row tl IH]; simpl; intros acc H; [now left|].
  destruct (IH _ H) as [H1|[row' [Hin [Hk Hp]]]].
  - rewrite dict_get_set in H1. destruct (k =? row_id row)%Z eqn:E.
    + injection H1 as <-. right. exists row. apply Z.eqb_eq in E. auto.
    + now left.
  - right. exists row'. auto.
Qed.

Lemma load_get (k : Z) (rows : list StateRow) (p : Prev) :
  dict_get k (load_previous_state rows) = Some p ->
  exists row, In row rows /\ row_id row = k /\ p = prev_of row.
Proof.
  intro H. apply (load_fold_get k rows [] p) in H as [H|H]; [discriminate|assumption].
Qed.

Lemma save_In (cars : list Car) (models : dict Model) (row : StateRow) :
  In row (save_current_state cars models) <->
  exists car m, In car cars /\ dict_get (modelId car) models = Some m /\ type_ok m = true /\
    row = mkStateRow (id car) (fuel car) (round2 (to_liters (fuel car) (maxFuel m)))
            (car_available car) (modelId car).
Proof.
  unfold save_current_state. rewrite in_flat_map. split.
  - intros [car [Hc Hr]]. unfold save_row in Hr.
    destruct (dict_get (modelId car) models) as [m|] eqn:Em; [|contradiction].
    destruct (type_ok m) eqn:Et; simpl in Hr; [|contradiction].
    destruct Hr as [<-|[]]. exists car, m. auto.
  - intros [car [m (Hc & Em & Et & ->)]]. exists car. split; [assumption|].
    unfold save_row. rewrite Em, Et. simpl. now left.
Qed.

Lemma car_event_some (prev : dict Prev) (models : dict Model) (car : Car) (e : PollEvent) :
  car_event prev models car = Some e ->
  exists m p, dict_get (modelId car) models = Some m /\ type_ok m = true /\
    dict_get (id car) prev = Some p /\ prev_available p = true /\
    (to_liters (fuel car) (maxFuel m) < prev_fuel_liters p)%Q /\
    (threshold < prev_fuel_liters p - to_liters (fuel car) (maxFuel m))%Q /\
    e = mkPollEvent (id car) (prev_fuel_liters p - to_liters (fuel car) (maxFuel m))
          (name m) (type m) (prev_fuel_liters p) (to_liters (fuel car) (maxFuel m)).
Proof.
  unfold car_event.
  destruct (dict_get (modelId car) models) as [m|] eqn:Em; [|discriminate].
  destruct (type_ok m) eqn:Et; simpl; [|discriminate].
  destruct (dict_get (id car) prev) as [p|] eqn:Ep; [|discriminate].
  destruct (prev_available p) eqn:Ea; simpl; [|discriminate].
  destruct (Qltb _ _) eqn:Hlt; [|discriminate].
  destruct (Qltb threshold _) eqn:Ht; [|discriminate].
  intro H. injection H as <-. rewrite Qltb_iff in Hlt, Ht.
  exists m, p. repeat split; assumption.
Qed.

Lemma car_event_iff (prev : dict Prev) (models : dict Model) (car : Car) (m : Model) (p : Prev) :
  dict_get (modelId car) models = Some m -> type_ok m = true ->
  dict_get (id car) prev = Some p ->
  ((exists e, car_event prev models car = Some e) <->
   prev_available p = true /\ (threshold < prev_fuel_liters p - to_liters (fuel car) (maxFuel m))%Q).
Proof.
  intros Em Et Ep. split.
  - intros [e He]. apply car_event_some in He as [m' [p' (Em' & _ & Ep' & Ea & _ & Ht & _)]].
    rewrite Em in Em'. rewrite Ep in Ep'. injection Em' as <-. injection Ep' as <-. auto.
  - intros [Ea Ht]. unfold car_event. rewrite Em, Et, Ep, Ea. simpl.
    assert (Hlt : (to_liters (fuel car) (maxFuel m) < prev_fuel_liters p)%Q).
    { apply Qlt_minus_iff. apply Qlt_trans with threshold; [reflexivity|assumption]. }
    apply Qltb_iff in Hlt, Ht. rewrite Hlt, Ht. eexists. reflexivity.
Qed.

Lemma calculate_consumption_In (prev : dict Prev) (cars : list Car) (models : dict Model)
    (e : PollEvent) :
  In e (calculate_consumption prev cars models) <->
  exists car, In car cars /\ car_event prev models car = Some e.
Proof.
  unfold calculate_consumption. rewrite in_flat_map. split.
  - intros [car [Hc He]]. exists car. split; [assumption|].
    destruct (car_event prev models car); simpl in He; [|contradiction].
    destruct He as [<-|[]]. reflexivity.
  - intros [car [Hc He]]. exists car. rewrite He. simpl. auto.
Qed.

Lemma poll_cycle_In (state_file : list StateRow) (models : dict Model) (cars : list Car)
    (e : PollEvent) :
  In e (fst (poll_cycle state_file models cars)) ->
  exists car, In car cars /\ car_event (load_previous_state state_file) models car = Some e.
Proof.
  unfold poll_cycle. simpl. destruct (load_previous_state state_file) eqn:E; [contradiction|].
  rewrite <- E. apply calculate_consumption_In.
Qed.

End PollFacts.

(** ** Facts about the database derivation *)

Module DbFacts.
Import Db.

Lemma db_scan_car_id (cid : Z) (rs : list DbRow) (e : DbEvent) :
  In e (db_scan cid rs) -> de_car_id e = cid.
Proof.
  induction rs as [|x tl IH]; simpl; [tauto|].
  destruct tl as [|y tl']; [simpl; tauto|].
  intro H. apply in_app_or in H as [H|H]; [|now apply IH].
  unfold db_pair_event in H.
  destruct (db_available x && Qltb (db_fuel y) (db_fuel x)); [|contradiction].
  destruct (Qltb threshold _); simpl in H; [|contradiction].
  destruct H as [<-|[]]. reflexivity.
Qed.

Lemma map_fst_filter_pairs (f : Z -> nat) (P : nat -> bool) (l : list Z) :
  map fst (filter (fun p => P (snd p)) (map (fun c => (c, f c)) l)) =
  filter (fun c => P (f c)) l.
Proof.
  induction l as [|c tl IH]; simpl; [reflexivity|].
  destruct (P (f c)); simpl; now rewrite IH.
Qed.

Lemma cars_with_data_NoDup (db : list DbRow) : NoDup (map fst (cars_with_data db)).
Proof.
  unfold cars_with_data.
  rewrite (map_fst_filter_pairs
             (fun c => List.length (filter (fun r => (db_car_id r =? c)%Z) db))
             (fun n => (1 <? n)%nat)).
  apply NoDup_filter, unique_keys_NoDup.
Qed.

Lemma calculate_fuel_consumption_In (db : list DbRow) (e : DbEvent) :
  In e (calculate_fuel_consumption db) ->
  In (de_car_id e) (map fst (firstn 10 (cars_with_data db))).
Proof.
  unfold calculate_fuel_consumption. rewrite in_flat_map.
  intros [p [Hp He]]. apply db_scan_car_id in He. rewrite He.
  now apply in_map.
Qed.

End DbFacts.

(** ** Claims *)

Import Batch Notions BatchFacts Samples.

(** C1: in the batch derivation, a pair of consecutive readings of a
    car yields an event exactly when the earlier reading is available,
    the later fuel is strictly below the earlier one and the drop exceeds
    the threshold; the later reading's availability plays no part; every
    adjacent pair meeting the condition is reported. Every event of the
    batch derivation has [prev > curr], [consumption = prev - curr >
    threshold] and comes from an adjacent pair whose earlier reading is
    available; the events of the polling derivation satisfy the same
    invariant. *)
Theorem C1_emission_iff :
  (forall c A B, (exists e, pair_event c A B = Some e) <-> emits A B) /\
  (forall c A B b, pair_event c A B = pair_event c A (with_available b B)) /\
  (forall df c pre A B suf e,
     sorted_group df c = pre ++ A :: B :: suf -> pair_event c A B = Some e ->
     In e (calculate_consumption_from_readings df)) /\
  (forall df e, In e (calculate_consumption_from_readings df) ->
     (curr_fuel_liters e < prev_fuel_liters e)%Q /\
     consumption_liters e = (prev_fuel_liters e - curr_fuel_liters e)%Q /\
     (threshold < consumption_liters e)%Q /\
     exists pre A B suf,
       sorted_group df (ev_car_id e) = pre ++ A :: B :: suf /\ available A = true /\
       fuel_liters A = Some (prev_fuel_liters e) /\ fuel_liters B = Some (curr_fuel_liters e)) /\
  (forall prev models car e, Poll.car_event prev models car = Some e ->
     (Poll.pe_curr_fuel e < Poll.pe_prev_fuel e)%Q /\
     Poll.pe_consumption e = (Poll.pe_prev_fuel e - Poll.pe_curr_fuel e)%Q /\
     (threshold < Poll.pe_consumption e)%Q /\
     exists p, Poll.dict_get (Poll.id car) prev = Some p /\ Poll.prev_available p = true /\
       Poll.prev_fuel_liters p = Poll.pe_prev_fuel e).
Proof.
  split; [exact pair_event_emits|].
  split; [intros; reflexivity|].
  split; [intros df c pre A B suf e; apply calc_pair_event|].
  split.
  - intros df e H. destruct (calc_event_pair df e H) as [pre [A [B [suf [Hg He]]]]].
    pose proof He as He'.
    apply pair_event_some in He' as [Ha [fa [fb (HA & HB & Hlt & Ht & Heq)]]].
    rewrite Heq. simpl. repeat split; try assumption.
    exists pre, A, B, suf. rewrite Heq in Hg. simpl in Hg. auto.
  - intros prev models car e He.
    apply PollFacts.car_event_some in He as [m [p (_ & _ & Ep & Ea & Hlt & Ht & ->)]].
    simpl. repeat split; try assumption. exists p. auto.
Qed.

Lemma C1_emission_iff_witness :
  exists e, pair_event 7 c1_r1 c1_r2 = Some e /\
            In e (calculate_consumption_from_readings [c1_r1; c1_r2]).
Proof.
  destruct C1_emission_iff as [H1 [_ [H3 _]]].
  destruct (proj2 (H1 7%Z c1_r1 c1_r2)) as [e He].
  { split; [reflexivity|]. exists 40%Q, 30%Q. repeat split; reflexivity. }
  exists e. split; [exact He|].
  apply (H3 [c1_r1; c1_r2] 7%Z [] c1_r1 c1_r2 [] e); [reflexivity|exact He].
Defined.

(** C2 as stated fails for the code: the fuel values are doubles and the
    drop is their double-precision difference. Readings 1.1 then 1.0
    (a decimal drop of exactly 0.1) give 1.1 - 1.0 = 0.10000000000000009
    > 0.1, hence an event in the batch derivation; so do 50.1 then 50.0 in
    the database derivation, and a previous state saved as 1.10 L with a
    10 L tank now at 10 % in the polling path. *)
Lemma C2_exact_drop_counterexample :
  ((11 # 10) - 1 == 1 # 10)%Q /\ ((501 # 10) - 50 == 1 # 10)%Q /\
  (exists e, F64.pair_event 1 F64.r_1_1 F64.r_1_0 = Some e) /\
  (exists e, F64.db_pair_event 1 F64.db_50_1 F64.db_50_0 = Some e) /\
  (exists e, F64.car_event F64.prev_1_10 F64.m_10 F64.car_10 = Some e).
Proof.
  split; [reflexivity|]. split; [reflexivity|].
  split; [eexists; vm_compute; reflexivity|].
  split; eexists; vm_compute; reflexivity.
Qed.

(** C2 (amended): in all three derivations, with the earlier reading
    available, a pair yields an event exactly when the later value is
    lower and the double-precision difference of the two values exceeds
    the double 0.1, the same constant whatever the model. A decimal drop
    of exactly 0.1 may then give an event (above) or not (0.2 then 0.1);
    a drop of 0.1000001 gives one. *)
Theorem C2_double_threshold :
  (forall c A B, F64.available A = true ->
     ((exists e, F64.pair_event c A B = Some e) <->
      PrimFloat.ltb (F64.fuel_liters B) (F64.fuel_liters A) = true /\
      PrimFloat.ltb F64.threshold
        (PrimFloat.sub (F64.fuel_liters A) (F64.fuel_liters B)) = true)) /\
  (forall prev models car m p,
     Poll.dict_get (F64.modelId car) models = Some m -> F64.type_ok m = true ->
     Poll.dict_get (F64.id car) prev = Some p -> F64.prev_available p = true ->
     ((exists e, F64.car_event prev models car = Some e) <->
      PrimFloat.ltb (F64.to_liters (F64.fuel car) (F64.maxFuel m)) (F64.prev_liters p) = true /\
      PrimFloat.ltb F64.threshold
        (PrimFloat.sub (F64.prev_liters p) (F64.to_liters (F64.fuel car) (F64.maxFuel m)))
      = true)) /\
  (forall c P Cu, F64.db_available P = true ->
     ((exists e, F64.db_pair_event c P Cu = Some e) <->
      PrimFloat.ltb (F64.db_fuel Cu) (F64.db_fuel P) = true /\
      PrimFloat.ltb F64.threshold (PrimFloat.sub (F64.db_fuel P) (F64.db_fuel Cu)) = true)) /\
  F64.pair_event 1 F64.r_0_2 F64.r_0_1 = None /\
  F64.pair_event 1 F64.r_1_1000001 F64.r_1_0 <> None.
Proof.
  split; [|split; [|split; [|split]]].
  - intros c A B Ha. unfold F64.pair_event. rewrite Ha. cbn [andb].
    destruct (PrimFloat.ltb (F64.fuel_liters B) (F64.fuel_liters A)) eqn:E1;
      [destruct (PrimFloat.ltb F64.threshold _) eqn:E2|].
    + split; [auto|]. intros _. eexists. reflexivity.
    + split; [intros [e He]; discriminate|intros [_ H]; discriminate].
    + split; [intros [e He]; discriminate|intros [H _]; discriminate].
  - intros prev models car m p Em Et Ep Ea. unfold F64.car_event.
    rewrite Em, Et, Ep, Ea. cbn [negb andb].
    destruct (PrimFloat.ltb (F64.to_liters (F64.fuel car) (F64.maxFuel m)) (F64.prev_liters p))
      eqn:E1; [destruct (PrimFloat.ltb F64.threshold _) eqn:E2|].
    + split; [auto|]. intros _. eexists. reflexivity.
    + split; [intros [e He]; discriminate|intros [_ H]; discriminate].
    + split; [intros [e He]; discriminate|intros [H _]; discriminate].
  - intros c P Cu Ha. unfold F64.db_pair_event. rewrite Ha. cbn [andb].
    destruct (PrimFloat.ltb (F64.db_fuel Cu) (F64.db_fuel P)) eqn:E1;
      [destruct (PrimFloat.ltb F64.threshold _) eqn:E2|].
    + split; [auto|]. intros _. eexists. reflexivity.
    + split; [intros [e He]; discriminate|intros [_ H]; discriminate].
    + split; [intros [e He]; discriminate|intros [H _]; discriminate].
  - vm_compute. reflexivity.
  - vm_compute. discriminate.
Qed.

Lemma C2_double_threshold_witness :
  exists e, F64.pair_event 1 F64.r_1_1000001 F64.r_1_0 = Some e.
Proof.
  destruct C2_double_threshold as [H1 _].
  apply H1; [reflexivity|]. split; vm_compute; reflexivity.
Defined.

(** C3: the polling path converts a fuel percentage to liters with
    [percent / 100 * maxFuel] on both sides of a compared pair: the current
    reading directly, the earlier one when the state file was saved (and
    then kept to two decimals). With a 50 L tank, 80 % then 60 % gives one
    event of 10 L; with a 40 L tank 50 % is 20 L and 25 % is 10 L. *)
Theorem C3_unit_normalization :
  (forall cars0 models cars e,
     In e (fst (Poll.poll_cycle (Poll.save_current_state cars0 models) models cars)) ->
     exists car m car0 m0,
       In car cars /\ Poll.dict_get (Poll.modelId car) models = Some m /\
       Poll.type_ok m = true /\
       In car0 cars0 /\ Poll.id car0 = Poll.id car /\
       Poll.dict_get (Poll.modelId car0) models = Some m0 /\ Poll.type_ok m0 = true /\
       Poll.pe_curr_fuel e = Poll.to_liters (Poll.fuel car) (Poll.maxFuel m) /\
       Poll.pe_prev_fuel e = round2 (Poll.to_liters (Poll.fuel car0) (Poll.maxFuel m0)) /\
       Poll.pe_consumption e = (Poll.pe_prev_fuel e - Poll.pe_curr_fuel e)%Q) /\
  (Poll.to_liters 80 50 == 40)%Q /\ (Poll.to_liters 60 50 == 30)%Q /\
  (Poll.to_liters 50 40 == 20)%Q /\ (Poll.to_liters 25 40 == 10)%Q /\
  exists e,
    fst (Poll.poll_cycle (Poll.save_current_state [c3_car1] c3_models) c3_models [c3_car2])
      = [e] /\
    (Poll.pe_consumption e == 10)%Q /\ (Poll.pe_prev_fuel e == 40)%Q /\
    (Poll.pe_curr_fuel e == 30)%Q.
Proof.
  split; [|split; [reflexivity|split; [reflexivity|split; [reflexivity|split; [reflexivity|]]]]].
  2:{ eexists. split; [vm_compute; reflexivity|]. repeat split; reflexivity. }
  intros cars0 models cars e He.
  apply PollFacts.poll_cycle_In in He as [car [Hc He]].
  apply PollFacts.car_event_some in He as [m [p (Em & Et & Ep & _ & _ & _ & ->)]].
  apply PollFacts.load_get in Ep as [row [Hrow [Hid ->]]].
  apply PollFacts.save_In in Hrow as [car0 [m0 (Hc0 & Em0 & Et0 & ->)]].
  exists car, m, car0, m0. simpl in *. repeat split; auto.
Qed.

Lemma C3_unit_normalization_witness :
  exists e car m, In car [c3_car2] /\
    In e (fst (Poll.poll_cycle (Poll.save_current_state [c3_car1] c3_models)
                 c3_models [c3_car2])) /\
    Poll.pe_curr_fuel e = Poll.to_liters (Poll.fuel car) (Poll.maxFuel m).
Proof.
  destruct C3_unit_normalization as [H1 [_ [_ [_ [_ [e [He _]]]]]]].
  assert (Hin : In e (fst (Poll.poll_cycle (Poll.save_current_state [c3_car1] c3_models)
                             c3_models [c3_car2]))) by (rewrite He; left; reflexivity).
  destruct (H1 [c3_car1] c3_models [c3_car2] e Hin)
    as [car [m [car0 [m0 (Hc & _ & _ & _ & _ & _ & _ & Hcurr & _)]]]].
  exists e, car, m. auto.
Defined.

Lemma filter_map_comm {T} (f : T -> T) (P : T -> bool) (Hf : forall x, P (f x) = P x)
    (l : list T) : filter P (map f l) = map f (filter P l).
Proof.
  induction l as [|x tl IH]; simpl; [reflexivity|].
  rewrite Hf. destruct (P x); simpl; now rewrite IH.
Qed.

Lemma pair_event_with_model_type (t c : Z) (A B : Reading) :
  pair_event c (with_model_type t A) (with_model_type t B) =
  option_map (ev_with_model_type t) (pair_event c A B).
Proof.
  unfold pair_event, with_model_type. simpl.
  destruct (available A), (fuel_liters A), (fuel_liters B); simpl; try reflexivity.
  destruct (Qltb _ _); simpl; [|reflexivity].
  destruct (Qltb threshold _); reflexivity.
Qed.

Lemma scan_with_model_type (t c : Z) (g : list Reading) :
  scan c (map (with_model_type t) g) = map (ev_with_model_type t) (scan c g).
Proof.
  induction g as [|x tl IH]; [reflexivity|].
  destruct tl as [|y tl']; [reflexivity|].
  change (scan c (map (with_model_type t) (x :: y :: tl'))) with
    (option_list (pair_event c (with_model_type t x) (with_model_type t y)) ++
     scan c (map (with_model_type t) (y :: tl'))).
  rewrite IH, pair_event_with_model_type. simpl. rewrite map_app.
  destruct (pair_event c x y); reflexivity.
Qed.

Lemma calc_with_model_type (t : Z) (df : list Reading) :
  calculate_consumption_from_readings (map (with_model_type t) df) =
  map (ev_with_model_type t) (calculate_consumption_from_readings df).
Proof.
  unfold calculate_consumption_from_readings.
  assert (Hk : group_keys (map (with_model_type t) df) = group_keys df).
  { unfold group_keys. now rewrite map_map. }
  rewrite Hk. clear Hk. induction (group_keys df) as [|c tl IH]; [reflexivity|].
  simpl. rewrite map_app, IH. f_equal.
  unfold sorted_group, group.
  rewrite (filter_map_comm (with_model_type t)) by reflexivity.
  rewrite (sort_by_map _ timestamp (with_model_type t)) by reflexivity.
  apply scan_with_model_type.
Qed.

Lemma valid_car_false_event (prev : Poll.dict Poll.Prev) (models : Poll.dict Poll.Model)
    (car : Poll.Car) :
  valid_car models car = false ->
  Poll.car_event prev models car = None /\ Poll.save_row models car = [].
Proof.
  unfold valid_car, Poll.car_event, Poll.save_row.
  destruct (Poll.dict_get (Poll.modelId car) models) as [m|]; [|auto].
  intro H. rewrite H. simpl. auto.
Qed.

(** C4: in the polling path a car with an unknown model id or a model
    type outside {1,2} yields no event and is not saved, so dropping such
    cars from the poll beforehand changes nothing; the batch derivation
    does no model lookup: setting every reading's model type to any value
    [t] changes its events only in their model-type field. *)
Theorem C4_model_filter_polling_only :
  (forall prev models car, valid_car models car = false ->
     Poll.car_event prev models car = None /\ Poll.save_row models car = []) /\
  (forall prev models cars,
     Poll.calculate_consumption prev cars models =
       Poll.calculate_consumption prev (filter (valid_car models) cars) models /\
     Poll.save_current_state cars models =
       Poll.save_current_state (filter (valid_car models) cars) models) /\
  (forall t df,
     calculate_consumption_from_readings (map (with_model_type t) df) =
     map (ev_with_model_type t) (calculate_consumption_from_readings df)).
Proof.
  split; [exact valid_car_false_event|].
  split; [|exact calc_with_model_type].
  intros prev models cars.
  unfold Poll.calculate_consumption, Poll.save_current_state.
  induction cars as [|car tl [IH1 IH2]]; [split; reflexivity|].
  simpl. destruct (valid_car models car) eqn:Ev; simpl; rewrite IH1, IH2; [split; reflexivity|].
  destruct (valid_car_false_event prev models car Ev) as [-> ->]. split; reflexivity.
Qed.

Lemma C4_model_filter_polling_only_witness :
  Poll.car_event [] c3_models (Poll.mkCar 9 99 50 true) = None.
Proof.
  destruct C4_model_filter_polling_only as [H1 _].
  apply (H1 [] c3_models (Poll.mkCar 9 99 50 true)). reflexivity.
Defined.

(** C4 as stated fails: in the batch derivation a vehicle whose readings
    carry model type 3 (outside {1,2}) still yields an event. *)
Lemma C4_model_filter_counterexample :
  exists e, In e (calculate_consumption_from_readings c4_df) /\ ev_model_type e = 3%Z.
Proof.
  vm_compute. eexists. split; [left; reflexivity|reflexivity].
Qed.

(** C5 as stated fails: in the polling path the earlier reading's liters
    are compared as saved, rounded to two decimals. A 10.07 L tank read
    at 5 % then 4 % drops by 0.1007 L at full precision, yet no event is
    emitted (0.50 - 0.4028 = 0.0972); a 45.25 L tank read at 41 % then
    40 % reports 0.45 L where the full-precision drop is 0.4525 L. *)
Lemma C5_rounding_counterexample :
  (threshold < Poll.to_liters 5 (1007 # 100) - Poll.to_liters 4 (1007 # 100))%Q /\
  fst (Poll.poll_cycle (Poll.save_current_state [c5_car1] c5_models) c5_models [c5_car2])
    = [] /\
  exists e,
    fst (Poll.poll_cycle (Poll.save_current_state [c5b_car1] c5b_models) c5b_models [c5b_car2])
      = [e] /\
    ~ (Poll.pe_consumption e == Poll.to_liters 41 (4525 # 100) - Poll.to_liters 40 (4525 # 100))%Q.
Proof.
  split; [reflexivity|]. split; [vm_compute; reflexivity|].
  eexists. split; [vm_compute; reflexivity|].
  intro H. vm_compute in H. discriminate H.
Qed.

(** C5 (amended): in the polling path the previous liters value is the
    one saved in the state file, i.e. the two-decimal rounding of its
    full-precision conversion; the decrease test, the 0.1 test and the
    consumption amount use that rounded value against the current value
    at full precision. *)
Theorem C5_rounded_previous_value :
  forall cars0 models car m p,
    Poll.dict_get (Poll.modelId car) models = Some m -> Poll.type_ok m = true ->
    Poll.dict_get (Poll.id car)
      (Poll.load_previous_state (Poll.save_current_state cars0 models)) = Some p ->
    (exists car0 m0, In car0 cars0 /\ Poll.id car0 = Poll.id car /\
       Poll.dict_get (Poll.modelId car0) models = Some m0 /\
       Poll.prev_fuel_liters p = round2 (Poll.to_liters (Poll.fuel car0) (Poll.maxFuel m0))) /\
    ((exists e, Poll.car_event (Poll.load_previous_state (Poll.save_current_state cars0 models))
                  models car = Some e) <->
     Poll.prev_available p = true /\
     (threshold < Poll.prev_fuel_liters p - Poll.to_liters (Poll.fuel car) (Poll.maxFuel m))%Q) /\
    (forall e, Poll.car_event (Poll.load_previous_state (Poll.save_current_state cars0 models))
                 models car = Some e ->
       Poll.pe_consumption e =
         (Poll.prev_fuel_liters p - Poll.to_liters (Poll.fuel car) (Poll.maxFuel m))%Q).
Proof.
  intros cars0 models car m p Em Et Ep. split; [|split].
  - pose proof Ep as Ep'.
    apply PollFacts.load_get in Ep' as [row [Hrow [Hid ->]]].
    apply PollFacts.save_In in Hrow as [car0 [m0 (Hc0 & Em0 & _ & ->)]].
    exists car0, m0. simpl in *. auto.
  - now apply PollFacts.car_event_iff.
  - intros e He. apply PollFacts.car_event_some in He as [m' [p' (Em' & _ & Ep' & _ & _ & _ & ->)]].
    rewrite Em in Em'. rewrite Ep in Ep'. injection Em' as <-. injection Ep' as <-.
    reflexivity.
Qed.

Lemma C5_rounded_previous_value_witness :
  ~ exists e, Poll.car_event (Poll.load_previous_state (Poll.save_current_state [c5_car1] c5_models))
                c5_models c5_car2 = Some e.
Proof.
  destruct (C5_rounded_previous_value [c5_car1] c5_models c5_car2
              (Poll.mkModel "Van" 1 (1007 # 100)) (Poll.mkPrev 5 (50 # 100) true 1)
              eq_refl eq_refl) as [_ [Hiff _]]; [vm_compute; reflexivity|].
  rewrite Hiff. intros [_ Ht]. apply Qlt_not_le in Ht. apply Ht.
  apply Qle_bool_iff. vm_compute. reflexivity.
Defined.

(** C6 as stated fails: a reading without a fuel value is not removed
    from its car's sequence, so its neighbours are never compared. With
    it removed, the 10 L -> 5 L drop would be reported; with it present
    the derivation reports nothing. *)
Lemma C6_malformed_gap_counterexample :
  calculate_consumption_from_readings [c6_a; c6_m; c6_c] = [] /\
  calculate_consumption_from_readings [c6_a; c6_m; c6_c] <>
  calculate_consumption_from_readings (filter (fun r => negb (malformed r)) [c6_a; c6_m; c6_c]).
Proof.
  split; [vm_compute; reflexivity|]. vm_compute. discriminate.
Qed.

(** C6 (amended): a reading with a missing fuel value raises no error
    and stays in its car's ordered sequence; the pair ending at it and the
    pair starting at it yield no event, its two neighbours are not
    compared, and every other adjacent pair is scanned as usual. *)
Theorem C6_malformed_splits_scan :
  (forall c A B, malformed B = true ->
     pair_event c A B = None /\ pair_event c B A = None) /\
  (forall df c l1 M l2,
     sorted_group df c = l1 ++ M :: l2 -> malformed M = true ->
     scan c (sorted_group df c) = scan c l1 ++ scan c l2).
Proof.
  split.
  - intros c A B HB. now apply pair_event_none_malformed; right.
  - intros df c l1 M l2 Hg HM. rewrite Hg. now apply scan_app_malformed.
Qed.

Lemma C6_malformed_splits_scan_witness :
  scan 1 (sorted_group [c6_a; c6_m; c6_c] 1) = scan 1 [c6_a] ++ scan 1 [c6_c].
Proof.
  destruct C6_malformed_splits_scan as [_ H2].
  apply (H2 [c6_a; c6_m; c6_c] 1%Z [c6_a] c6_m [c6_c]); reflexivity.
Defined.

(** C7: the empty table yields no event; every event compares two
    consecutive readings of one car (the event belongs to the later one,
    which has a predecessor); a car with at most one reading yields no
    event. *)
Theorem C7_no_first_or_cross_vehicle :
  calculate_consumption_from_readings [] = [] /\
  (forall df e, In e (calculate_consumption_from_readings df) ->
     exists pre A B suf,
       sorted_group df (ev_car_id e) = pre ++ A :: B :: suf /\
       car_id A = ev_car_id e /\ car_id B = ev_car_id e /\
       ev_timestamp e = timestamp B /\ prev_timestamp e = timestamp A) /\
  (forall df c, (List.length (group df c) <= 1)%nat ->
     forall e, In e (calculate_consumption_from_readings df) -> ev_car_id e <> c).
Proof.
  split; [reflexivity|]. split.
  - intros df e H. destruct (calc_event_pair df e H) as [pre [A [B [suf [Hg He]]]]].
    exists pre, A, B, suf. split; [assumption|].
    assert (HA : In A (sorted_group df (ev_car_id e))) by (rewrite Hg; apply in_or_app; simpl; auto).
    assert (HB : In B (sorted_group df (ev_car_id e))) by (rewrite Hg; apply in_or_app; simpl; auto).
    apply sorted_group_In in HA as [_ HA]. apply sorted_group_In in HB as [_ HB].
    apply pair_event_some in He as [_ [fa [fb (_ & _ & _ & _ & Heq)]]].
    rewrite Heq. simpl. auto.
  - intros df c Hlen e H Hc. destruct (calc_event_pair df e H) as [pre [A [B [suf [Hg _]]]]].
    rewrite Hc in Hg. unfold sorted_group in Hg.
    pose proof (Permutation_length (sort_by_perm _ timestamp (group df c))) as Hl.
    rewrite Hg, length_app in Hl. simpl in Hl. lia.
Qed.

Lemma C7_no_first_or_cross_vehicle_witness :
  ~ exists e, In e (calculate_consumption_from_readings [c1_r1]) /\ ev_car_id e = 7%Z.
Proof.
  destruct C7_no_first_or_cross_vehicle as [_ [_ H3]].
  intros [e [Hin Hc]]. exact (H3 [c1_r1] 7%Z (le_n _) e Hin Hc).
Defined.

(** C8: each derivation is a function of its inputs: two runs on the
    same readings (and the same model table and saved state) give the
    same events, in the same order, with the same values. The Python code
    only reads its inputs ([groupby] and [sort_values] build new frames). *)
Theorem C8_deterministic :
  (forall df,
     let first_run := calculate_consumption_from_readings df in
     let second_run := calculate_consumption_from_readings df in
     first_run = second_run) /\
  (forall prev cars models,
     let first_run := Poll.calculate_consumption prev cars models in
     let second_run := Poll.calculate_consumption prev cars models in
     first_run = second_run) /\
  (forall db,
     let first_run := Db.calculate_fuel_consumption db in
     let second_run := Db.calculate_fuel_consumption db in
     first_run = second_run).
Proof.
  repeat split.
Qed.

(** C9: the database derivation scans only the first ten cars of the
    [GROUP BY] result; a car listed after them yields no event. *)
Theorem C9_first_ten_cars :
  forall db c, In c (map fst (skipn 10 (Db.cars_with_data db))) ->
    forall e, In e (Db.calculate_fuel_consumption db) -> Db.de_car_id e <> c.
Proof.
  intros db c Hc e He Heq. subst c.
  apply DbFacts.calculate_fuel_consumption_In in He.
  pose proof (DbFacts.cars_with_data_NoDup db) as Hnd.
  rewrite <- (firstn_skipn 10 (Db.cars_with_data db)), map_app in Hnd.
  exact (NoDup_app_not_in _ _ _ Hnd Hc He).
Qed.

Lemma C9_first_ten_cars_witness :
  Db.db_scan 11 (Db.readings c9_db 11) <> [] /\
  ~ exists e, In e (Db.calculate_fuel_consumption c9_db) /\ Db.de_car_id e = 11%Z.
Proof.
  split; [vm_compute; discriminate|].
  intros [e [He Hc]].
  refine (C9_first_ten_cars c9_db 11%Z _ e He Hc).
  vm_compute. left. reflexivity.
Defined.

(** C10: in the polling path an event names a car of the current poll
    that has an entry in the loaded previous state; the saved state is
    rebuilt from the current poll only (its valid-model cars); so a car
    missing from one poll yields no event in the next one. *)
Theorem C10_state_rewritten_each_poll :
  (forall state models cars e,
     In e (fst (Poll.poll_cycle state models cars)) ->
     (exists car, In car cars /\ Poll.id car = Poll.pe_car_id e) /\
     exists p, Poll.dict_get (Poll.pe_car_id e) (Poll.load_previous_state state) = Some p) /\
  (forall state models cars,
     snd (Poll.poll_cycle state models cars) = Poll.save_current_state cars models /\
     forall row, In row (snd (Poll.poll_cycle state models cars)) <->
       exists car m, In car cars /\ Poll.dict_get (Poll.modelId car) models = Some m /\
         Poll.type_ok m = true /\
         row = Poll.mkStateRow (Poll.id car) (Poll.fuel car)
                 (round2 (Poll.to_liters (Poll.fuel car) (Poll.maxFuel m)))
                 (Poll.car_available car) (Poll.modelId car)) /\
  (forall state models cars1 cars2 c, ~ In c (map Poll.id cars1) ->
     forall e, In e (fst (Poll.poll_cycle (snd (Poll.poll_cycle state models cars1)) models cars2)) ->
       Poll.pe_car_id e <> c).
Proof.
  assert (H1 : forall state models cars e,
     In e (fst (Poll.poll_cycle state models cars)) ->
     (exists car, In car cars /\ Poll.id car = Poll.pe_car_id e) /\
     exists p, Poll.dict_get (Poll.pe_car_id e) (Poll.load_previous_state state) = Some p).
  { intros state models cars e He.
    apply PollFacts.poll_cycle_In in He as [car [Hc He]].
    apply PollFacts.car_event_some in He as [m [p (_ & _ & Ep & _ & _ & _ & ->)]].
    simpl. split; [exists car; auto|]. exists p. exact Ep. }
  split; [exact H1|]. split.
  - intros state models cars. split; [reflexivity|]. intro row. apply PollFacts.save_In.
  - intros state models cars1 cars2 c Hc e He Heq.
    destruct (H1 _ _ _ _ He) as [_ [p Ep]]. rewrite Heq in Ep. simpl in Ep.
    apply PollFacts.load_get in Ep as [row [Hrow [Hid _]]].
    apply PollFacts.save_In in Hrow as [car [m (Hcar & _ & _ & ->)]].
    simpl in Hid. apply Hc. rewrite <- Hid. now apply in_map.
Qed.

Lemma C10_state_rewritten_each_poll_witness :
  ~ exists e,
      In e (fst (Poll.poll_cycle
                   (snd (Poll.poll_cycle (Poll.save_current_state [c3_car1] c3_models)
                           c3_models c10_poll2))
                   c3_models [c3_car2])) /\ Poll.pe_car_id e = 7%Z.
Proof.
  destruct C10_state_rewritten_each_poll as [_ [_ H3]].
  intros [e [He Hc]].
  refine (H3 (Poll.save_current_state [c3_car1] c3_models) c3_models c10_poll2 [c3_car2]
            7%Z _ e He Hc).
  simpl. intros [H|[]]. discriminate H.
Defined.

(** ** Further properties of the polling path *)

Module MonitorFacts.
Import Poll Notions Monitor.

Lemma round2_close (x : Q) : (round2 x - x <= 1 # 200)%Q /\ (x - round2 x <= 1 # 200)%Q.
Proof.
  destruct x as [n d]. unfold round2. cbn [Qnum Qden].
  pose proof (Z.div_mod (n * 100) (Zpos d) ltac:(lia)) as Hdm.
  pose proof (Z.mod_pos_bound (n * 100) (Zpos d) ltac:(lia)) as Hb.
  set (q := (n * 100 / Zpos d)%Z) in *. set (r := ((n * 100) mod Zpos d)%Z) in *.
  assert (Hz : forall z : Z, (2 * (z * Zpos d - n * 100) <= Zpos d)%Z ->
                         (2 * (n * 100 - z * Zpos d) <= Zpos d)%Z ->
                         ((z # 100) - (n # d) <= 1 # 200)%Q /\ ((n # d) - (z # 100) <= 1 # 200)%Q).
  { intros z H1 H2. unfold Qle, Qminus, Qplus, Qopp. cbn [Qnum Qden].
    rewrite !Pos2Z.inj_mul. split; nia. }
  destruct (2 * r <? Zpos d)%Z eqn:E1;
    [|destruct (Zpos d <? 2 * r)%Z eqn:E2; [|destruct (Z.even q)]];
    apply Hz; rewrite ?Z.ltb_lt, ?Z.ltb_ge in *; nia.
Qed.

Lemma load_fold_absent (k : Z) (rows : list StateRow) (acc : dict Prev) :
  (forall r, In r rows -> row_id r <> k) ->
  dict_get k (fold_left (fun state row => dict_set (row_id row) (prev_of row) state) rows acc)
  = dict_get k acc.
Proof.
  revert acc. induction rows as [|r tl IH]; simpl; intros acc H; [reflexivity|].
  rewrite IH by auto. rewrite PollFacts.dict_get_set.
  destruct (k =? row_id r)%Z eqn:E; [|reflexivity].
  apply Z.eqb_eq in E. exfalso. apply (H r); auto.
Qed.

Lemma load_fold_unique (k : Z) (rows : list StateRow) (acc : dict Prev) (row : StateRow) :
  In row rows -> row_id row = k -> (forall r, In r rows -> row_id r = k -> r = row) ->
  dict_get k (fold_left (fun state row => dict_set (row_id row) (prev_of row) state) rows acc)
  = Some (prev_of row).
Proof.
  revert acc. induction rows as [|r tl IH]; simpl; intros acc Hin Hk Hu; [contradiction|].
  destruct (existsb (fun r' => (row_id r' =? k)%Z) tl) eqn:Ex.
  - apply existsb_exists in Ex as [r' [Hr' Hk']]. apply Z.eqb_eq in Hk'.
    pose proof (Hu r' (or_intror Hr') Hk') as ->.
    apply IH; auto.
  - assert (Habs : forall r', In r' tl -> row_id r' <> k).
    { intros r' Hr' Hk'. assert (Hx : existsb (fun r' => (row_id r' =? k)%Z) tl = true).
      { apply existsb_exists. exists r'. split; [exact Hr'|]. now apply Z.eqb_eq. }
      congruence. }
    rewrite load_fold_absent by exact Habs.
    destruct Hin as [<-|Hin]; [|exfalso; exact (Habs row Hin Hk)].
    rewrite PollFacts.dict_get_set, Hk, Z.eqb_refl. reflexivity.
Qed.

Lemma NoDup_map_eq {T U} (f : T -> U) (l : list T) (a b : T) :
  NoDup (map f l) -> In a l -> In b l -> f a = f b -> a = b.
Proof.
  induction l as [|x tl IH]; simpl; intros Hnd Ha Hb Hf; [contradiction|].
  inversion Hnd as [|? ? Hx Hnd']; subst.
  destruct Ha as [<-|Ha], Hb as [<-|Hb]; auto.
  - exfalso. apply Hx. rewrite Hf. now apply in_map.
  - exfalso. apply Hx. rewrite <- Hf. now apply in_map.
Qed.

Lemma save_load_car (cars : list Car) (models : dict Model) (car : Car) :
  NoDup (map id cars) -> In car cars ->
  dict_get (id car) (load_previous_state (save_current_state cars models)) =
  saved_prev models car.
Proof.
  intros Hnd Hin. unfold load_previous_state, saved_prev.
  destruct (dict_get (modelId car) models) as [m|] eqn:Em; [destruct (type_ok m) eqn:Et|].
  - apply (load_fold_unique (id car) _ []
             (mkStateRow (id car) (fuel car) (round2 (to_liters (fuel car) (maxFuel m)))
                (car_available car) (modelId car))).
    + apply PollFacts.save_In. exists car, m. auto.
    + reflexivity.
    + intros r Hr Hk. apply PollFacts.save_In in Hr as [car' [m' (Hc' & Em' & _ & ->)]].
      simpl in Hk. pose proof (NoDup_map_eq id cars car' car Hnd Hc' Hin Hk) as ->.
      rewrite Em in Em'. injection Em' as <-. reflexivity.
  - rewrite load_fold_absent; [reflexivity|]. intros r Hr Hk.
    apply PollFacts.save_In in Hr as [car' [m' (Hc' & Em' & Et' & ->)]].
    simpl in Hk. pose proof (NoDup_map_eq id cars car' car Hnd Hc' Hin Hk) as ->.
    rewrite Em in Em'. injection Em' as <-. congruence.
  - rewrite load_fold_absent; [reflexivity|]. intros r Hr Hk.
    apply PollFacts.save_In in Hr as [car' [m' (Hc' & Em' & _ & ->)]].
    simpl in Hk. pose proof (NoDup_map_eq id cars car' car Hnd Hc' Hin Hk) as ->.
    congruence.
Qed.

Lemma save_load_absent (cars : list Car) (models : dict Model) (k : Z) :
  ~ In k (map id cars) ->
  dict_get k (load_previous_state (save_current_state cars models)) = None.
Proof.
  intro Hk. unfold load_previous_state. rewrite load_fold_absent; [reflexivity|].
  intros r Hr Hrk. apply PollFacts.save_In in Hr as [car [m (Hc & _ & _ & ->)]].
  apply Hk. simpl in Hrk. rewrite <- Hrk. now apply in_map.
Qed.

Lemma calculate_consumption_nil (prev : dict Prev) (cars : list Car) (models : dict Model) :
  (forall car, In car cars -> car_event prev models car = None) ->
  calculate_consumption prev cars models = [].
Proof.
  unfold calculate_consumption. induction cars as [|car tl IH]; simpl; intro H; [reflexivity|].
  rewrite H by auto. simpl. apply IH. auto.
Qed.

End MonitorFacts.

Import Monitor MonitorFacts.

(** Save then load of the state file: when the polled cars have
    distinct ids, the loaded entry of a car is its percentage, its liters
    rounded to two decimals, its availability and its model id if its
    model is known with type 1 or 2, and nothing otherwise; an id not in
    the poll has no entry. *)
Theorem state_save_load_roundtrip :
  forall cars models, NoDup (map Poll.id cars) ->
    (forall car, In car cars ->
       Poll.dict_get (Poll.id car) (Poll.load_previous_state (Poll.save_current_state cars models))
       = saved_prev models car) /\
    (forall k, ~ In k (map Poll.id cars) ->
       Poll.dict_get k (Poll.load_previous_state (Poll.save_current_state cars models)) = None).
Proof.
  intros cars models Hnd. split.
  - intros car Hin. now apply save_load_car.
  - apply save_load_absent.
Qed.

Lemma state_save_load_roundtrip_witness :
  Poll.dict_get 7 (Poll.load_previous_state (Poll.save_current_state [c3_car1] c3_models))
  = saved_prev c3_models c3_car1.
Proof.
  destruct (state_save_load_roundtrip [c3_car1] c3_models) as [H _];
    [repeat constructor; simpl; tauto|].
  apply (H c3_car1). now left.
Defined.

(** Polling again a fleet whose cars (distinct ids) have not changed
    yields no event: the saved liters differ from the recomputed ones by
    at most 0.005, below the 0.1 threshold. *)
Theorem repoll_unchanged_fleet_no_events :
  forall models cars, NoDup (map Poll.id cars) ->
    fst (Poll.poll_cycle (Poll.save_current_state cars models) models cars) = [].
Proof.
  intros models cars Hnd. unfold Poll.poll_cycle. simpl.
  destruct (Poll.load_previous_state (Poll.save_current_state cars models)) as [|hd tl] eqn:EL;
    [reflexivity|].
  rewrite <- EL. apply calculate_consumption_nil. intros car Hin.
  destruct (Poll.car_event _ models car) as [e|] eqn:Ev; [|reflexivity].
  apply PollFacts.car_event_some in Ev as [m [p (Em & Et & Ep & _ & _ & Ht & _)]].
  rewrite save_load_car in Ep by assumption. unfold saved_prev in Ep.
  rewrite Em, Et in Ep. injection Ep as <-. simpl in Ht.
  destruct (round2_close (Poll.to_liters (Poll.fuel car) (Poll.maxFuel m))) as [H1 _].
  unfold threshold in Ht.
  set (x := Poll.to_liters (Poll.fuel car) (Poll.maxFuel m)) in *. clearbody x.
  set (y := round2 x) in *. clearbody y. lra.
Qed.

Lemma repoll_unchanged_fleet_no_events_witness :
  fst (Poll.poll_cycle (Poll.save_current_state [c3_car1; Poll.mkCar 8 3 33 true] c3_models)
         c3_models [c3_car1; Poll.mkCar 8 3 33 true]) = [].
Proof.
  apply repoll_unchanged_fleet_no_events. repeat constructor; simpl; intuition discriminate.
Defined.

(** A cycle whose state file is missing or in the old format (a header
    without [fuel_percent], [fuel_liters] or [model_id]) writes nothing to
    the log and rewrites the state file in the current format. *)
Theorem monitor_main_without_usable_state :
  forall models cars state_file log ts,
    (state_file = None \/
     exists header rows, state_file = Some (header, rows) /\
       (has_column header "fuel_percent"%string && has_column header "fuel_liters"%string
        && has_column header "model_id"%string) = false) ->
    monitor_main models cars state_file log ts =
    ((state_header, Poll.save_current_state cars models), log).
Proof.
  intros models cars state_file log ts H. unfold monitor_main.
  assert (Hl : load_state_file state_file = []).
  { destruct H as [->|[header [rows [-> Hh]]]]; [reflexivity|].
    simpl. destruct rows; [reflexivity|]. now rewrite Hh. }
  now rewrite Hl.
Qed.

Lemma monitor_main_without_usable_state_witness :
  monitor_main c3_models [c3_car2]
    (Some (["id"; "fuel"; "available"]%string, Poll.save_current_state [c3_car1] c3_models))
    None "2025-01-01 00:00:00"%string =
  ((state_header, Poll.save_current_state [c3_car2] c3_models), None).
Proof.
  apply monitor_main_without_usable_state. right.
  eexists _, _. split; reflexivity.
Defined.

(** Two consecutive cycles of [main]: the second logs exactly the events
    [poll_cycle] derives from the state the first one saved. *)
Theorem monitor_main_two_cycles :
  forall models cars1 cars2 state_file log ts1 ts2,
    snd (monitor_main models cars2 (Some (fst (monitor_main models cars1 state_file log ts1)))
           (snd (monitor_main models cars1 state_file log ts1)) ts2) =
    append_consumption_log ts2
      (fst (Poll.poll_cycle (Poll.save_current_state cars1 models) models cars2))
      (snd (monitor_main models cars1 state_file log ts1)).
Proof.
  intros models cars1 cars2 state_file log ts1 ts2.
  set (log1 := snd (monitor_main models cars1 state_file log ts1)).
  change (fst (monitor_main models cars1 state_file log ts1))
    with (state_header, Poll.save_current_state cars1 models).
  unfold monitor_main, Poll.poll_cycle. simpl.
  destruct (Poll.save_current_state cars1 models) as [|r rs]; [reflexivity|].
  destruct (Poll.load_previous_state (r :: rs)); reflexivity.
Qed.

(** The consumption log keeps its header once as first line; appending
    adds one row per event after the existing lines and leaves the file
    as it is (not even created) when there is no event. *)
Theorem consumption_log_append_only :
  forall ts events file, log_well_formed file ->
    log_well_formed (append_consumption_log ts events file) /\
    data_rows (append_consumption_log ts events file) = (data_rows file + List.length events)%nat /\
    (forall lines, file = Some lines ->
       exists added, append_consumption_log ts events file = Some (lines ++ added)) /\
    (events = [] -> append_consumption_log ts events file = file).
Proof.
  intros ts events file Hwf.
  assert (Hrows : forall l, ~ In LogHeader (map (log_row ts) l) /\
                        List.length (filter is_row (map (log_row ts) l)) = List.length l).
  { induction l as [|e tl [IH1 IH2]]; simpl; [tauto|].
    split; [intros [H|H]; [discriminate|tauto]|]. now rewrite IH2. }
  destruct events as [|e tl].
  - simpl. rewrite Nat.add_0_r. split; [assumption|]. split; [reflexivity|].
    split; [|reflexivity].
    intros lines ->. exists []. now rewrite app_nil_r.
  - unfold append_consumption_log. destruct (Hrows (e :: tl)) as [Hn Hl].
    repeat split.
    + right. destruct Hwf as [->|[rows [-> Hr]]].
      * exists (map (log_row ts) (e :: tl)). split; [reflexivity|exact Hn].
      * exists (rows ++ map (log_row ts) (e :: tl)). split; [reflexivity|].
        intro H. apply in_app_or in H as [H|H]; contradiction.
    + destruct Hwf as [->|[rows [-> Hr]]]; cbn [data_rows]; rewrite filter_app, length_app, Hl;
        reflexivity.
    + intros lines ->. eexists. reflexivity.
    + discriminate.
Qed.

Lemma consumption_log_append_only_witness :
  data_rows (append_consumption_log "2025-01-01 00:00:00"%string
               [Poll.mkPollEvent 7 10 "Fiat 500" 1 40 30] None) = 1%nat.
Proof.
  destruct (consumption_log_append_only "2025-01-01 00:00:00"%string
              [Poll.mkPollEvent 7 10 "Fiat 500" 1 40 30] None) as [_ [H _]];
    [now left|].
  rewrite H. reflexivity.
Defined.

Module BreakdownFacts.
Import Poll Monitor.

Lemma sdict_set_keys {V} (k : string) (v : V) (d : list (string * V)) (x : string) :
  In x (map fst (sdict_set k v d)) <-> x = k \/ In x (map fst d).
Proof.
  induction d as [|[k' v'] tl IH]; simpl; [split; intros [H|[]]; left; congruence|].
  destruct (String.eqb k k') eqn:E; simpl.
  - apply String.eqb_eq in E. subst k'. split.
    + intros [H|H]; [left; congruence|right; right; exact H].
    + intros [H|[H|H]]; [left; congruence|left; exact H|right; exact H].
  - rewrite IH. tauto.
Qed.

Lemma sdict_set_NoDup {V} (k : string) (v : V) (d : list (string * V)) :
  NoDup (map fst d) -> NoDup (map fst (sdict_set k v d)).
Proof.
  induction d as [|[k' v'] tl IH]; simpl; intros H.
  - constructor; [intros []|constructor].
  - inversion H as [|? ? Hn Ht]; subst.
    destruct (String.eqb k k') eqn:E; simpl.
    + apply String.eqb_eq in E. subst k'. now constructor.
    + constructor; [|now apply IH].
      rewrite sdict_set_keys. intros [Hk|Hk]; [|contradiction].
      subst k'. now rewrite String.eqb_refl in E.
Qed.

Lemma sdict_get_set {V} (k : string) (v : V) (d : list (string * V)) :
  sdict_get k (sdict_set k v d) = Some v.
Proof.
  induction d as [|[k' v'] tl IH]; simpl; [now rewrite String.eqb_refl|].
  destruct (String.eqb k k') eqn:E; simpl; [now rewrite String.eqb_refl|now rewrite E].
Qed.

Lemma sdict_set_absent_sums (k : string) (v : Tally) (d : list (string * Tally)) :
  sdict_get k d = None ->
  sum_counts (sdict_set k v d) = (sum_counts d + count v)%nat /\
  (sum_liters (sdict_set k v d) == sum_liters d + liters v)%Q.
Proof.
  induction d as [|[k' v'] tl IH]; simpl; intros H.
  - unfold sum_counts, sum_liters; simpl. split; [lia|lra].
  - destruct (String.eqb k k'); [discriminate|].
    destruct (IH H) as [Hc Hl]. unfold sum_counts, sum_liters in *; simpl.
    split; [lia|lra].
Qed.

Lemma sdict_set_present_sums (k : string) (v t : Tally) (d : list (string * Tally)) :
  sdict_get k d = Some t ->
  (sum_counts (sdict_set k v d) + count t = sum_counts d + count v)%nat /\
  (sum_liters (sdict_set k v d) + liters t == sum_liters d + liters v)%Q.
Proof.
  induction d as [|[k' v'] tl IH]; simpl; intros H; [discriminate|].
  destruct (String.eqb k k').
  - injection H as <-. unfold sum_counts, sum_liters; simpl. split; [lia|lra].
  - destruct (IH H) as [Hc Hl]. unfold sum_counts, sum_liters in *; simpl.
    split; [lia|lra].
Qed.

Lemma add_event_inv (mc : list (string * Tally)) (e : PollEvent) :
  NoDup (map fst mc) ->
  NoDup (map fst (add_event mc e)) /\
  sum_counts (add_event mc e) = S (sum_counts mc) /\
  (sum_liters (add_event mc e) == sum_liters mc + pe_consumption e)%Q /\
  (forall x, In x (map fst (add_event mc e)) <-> x = pe_car_name e \/ In x (map fst mc)).
Proof.
  intros Hnd. unfold add_event.
  destruct (sdict_get (pe_car_name e) mc) as [t|] eqn:G.
  - rewrite G.
    destruct (sdict_set_present_sums (pe_car_name e)
                (mkTally (S (count t)) (liters t + pe_consumption e)) t mc G) as [Hc Hl].
    simpl in Hc, Hl.
    split; [now apply sdict_set_NoDup|]. split; [lia|]. split; [lra|].
    intros x. apply sdict_set_keys.
  - set (mc1 := sdict_set (pe_car_name e) (mkTally 0 0) mc).
    rewrite (sdict_get_set (pe_car_name e) (mkTally 0 0) mc : sdict_get _ mc1 = _).
    cbn [count liters].
    destruct (sdict_set_absent_sums (pe_car_name e) (mkTally 0 0) mc G) as [Hc1 Hl1].
    destruct (sdict_set_present_sums (pe_car_name e)
                (mkTally 1 (0 + pe_consumption e)) (mkTally 0 0) mc1
                (sdict_get_set _ _ _)) as [Hc Hl].
    simpl in Hc1, Hl1, Hc, Hl. fold mc1 in Hc1, Hl1.
    split; [now apply sdict_set_NoDup, sdict_set_NoDup|]. split; [lia|]. split; [lra|].
    intros x. unfold mc1. rewrite !sdict_set_keys. tauto.
Qed.

Lemma model_breakdown_fold (evs : list PollEvent) (mc : list (string * Tally)) (a : Q) :
  NoDup (map fst mc) -> (sum_liters mc == a)%Q ->
  NoDup (map fst (fold_left add_event evs mc)) /\
  sum_counts (fold_left add_event evs mc) = (sum_counts mc + List.length evs)%nat /\
  (sum_liters (fold_left add_event evs mc) ==
   fold_left (fun acc e => (acc + pe_consumption e)%Q) evs a)%Q /\
  (forall x, In x (map fst (fold_left add_event evs mc)) <->
             In x (map fst mc) \/ exists e, In e evs /\ pe_car_name e = x).
Proof.
  revert mc a. induction evs as [|e tl IH]; intros mc a Hnd Ha; simpl.
  - split; [assumption|]. split; [lia|]. split; [assumption|].
    intros x. split; [tauto|]. intros [H|[e [[] _]]]; exact H.
  - destruct (add_event_inv mc e Hnd) as [Hnd' [Hc [Hl Hk]]].
    destruct (IH (add_event mc e) (a + pe_consumption e)%Q Hnd') as [H1 [H2 [H3 H4]]];
      [lra|].
    split; [exact H1|]. split; [lia|]. split; [exact H3|].
    intros x. rewrite H4, Hk. split.
    + intros [[->|H]|[e' [He' Hx]]]; eauto.
    + intros [H|[e' [[<-|He'] Hx]]]; eauto.
Qed.

End BreakdownFacts.

Import BreakdownFacts.

(** The per-model breakdown printed by [main] has one entry per car name
    that occurs among the events, and its counts add up to the number of
    events. *)
Theorem model_breakdown_counts (evs : list Poll.PollEvent) :
  NoDup (map fst (model_breakdown evs)) /\
  (forall nm, In nm (map fst (model_breakdown evs)) <->
              exists e, In e evs /\ Poll.pe_car_name e = nm) /\
  sum_counts (model_breakdown evs) = List.length evs.
Proof.
  destruct (model_breakdown_fold evs [] 0%Q (NoDup_nil _) (Qeq_refl _))
    as [H1 [H2 [_ H4]]].
  split; [exact H1|]. split; [|exact H2].
  intros nm. rewrite H4. simpl. tauto.
Qed.

(** [get_car_models] returns integer keys when it fetches the models, but
    string keys once they come back from its JSON cache: from the second
    run on, no car's integer [modelId] is found, so [main] saves a state
    file with no row and never logs an event. *)
Theorem cached_models_disable_polling (table : Poll.dict Poll.Model) (cars : list Poll.Car)
    (state_file : option (list string * list Poll.StateRow)) (log : option (list LogLine))
    (ts : string) :
  int_view (api_table table) = table /\
  int_view (json_roundtrip (api_table table)) = [] /\
  monitor_main (int_view (json_roundtrip (api_table table))) cars state_file log ts =
  ((state_header, []), log).
Proof.
  assert (Hj : int_view (json_roundtrip (api_table table)) = []).
  { induction table as [|[k m] tl IH]; [reflexivity|exact IH]. }
  split; [|split; [exact Hj|]].
  - induction table as [|[k m] tl IH]; [reflexivity|]. simpl. now rewrite IH.
  - rewrite Hj. unfold monitor_main.
    assert (Hs : Poll.save_current_state cars [] = []).
    { induction cars as [|c tl IH]; [reflexivity|exact IH]. }
    rewrite Hs, calculate_consumption_nil by reflexivity.
    destruct (load_state_file state_file); reflexivity.
Qed.

Module BatchOrderFacts.
Import Batch BatchFacts.

Lemma SS_app {T} (R : T -> T -> Prop) (l1 l2 : list T) :
  StronglySorted R l1 -> StronglySorted R l2 ->
  (forall a b, In a l1 -> In b l2 -> R a b) -> StronglySorted R (l1 ++ l2).
Proof.
  induction l1 as [|x tl IH]; simpl; intros H1 H2 H; [exact H2|].
  apply StronglySorted_inv in H1 as [H1 Hf]. constructor.
  - apply IH; auto.
  - apply Forall_app. split; [exact Hf|]. apply Forall_forall. auto.
Qed.

Lemma SS_adjacent {T} (R : T -> T -> Prop) (pre suf : list T) (a b : T) :
  StronglySorted R (pre ++ a :: b :: suf) -> R a b.
Proof.
  induction pre as [|x tl IH]; simpl; intro H.
  - apply StronglySorted_inv in H as [_ Hf]. now inversion Hf.
  - apply StronglySorted_inv in H as [H _]. auto.
Qed.

Lemma insert_by_sorted {T} (key : T -> Z) (x : T) (l : list T) :
  StronglySorted (fun a b => key a <= key b) l ->
  StronglySorted (fun a b => key a <= key b) (insert_by key x l).
Proof.
  induction l as [|y tl IH]; simpl; intro H; [repeat constructor|].
  apply StronglySorted_inv in H as [Hs Hf].
  destruct (key x <=? key y) eqn:E.
  - apply Z.leb_le in E. constructor; [constructor; assumption|].
    constructor; [lia|]. eapply Forall_impl; [|exact Hf]. simpl. intros; lia.
  - apply Z.leb_gt in E. constructor; [now apply IH|].
    apply Forall_forall. intros z Hz.
    apply (Permutation_in _ (insert_by_perm _ key x tl)) in Hz as [<-|Hz]; [lia|].
    rewrite Forall_forall in Hf. auto.
Qed.

Lemma sort_by_sorted {T} (key : T -> Z) (l : list T) :
  StronglySorted (fun a b => key a <= key b) (sort_by key l).
Proof.
  induction l as [|x tl IH]; simpl; [constructor|]. now apply insert_by_sorted.
Qed.

Lemma scan_timestamp (c : Z) (x : Reading) (l : list Reading) (e : Event) :
  In e (scan c (x :: l)) ->
  exists A B, In A (x :: l) /\ In B l /\ prev_timestamp e = timestamp A /\
    ev_timestamp e = timestamp B.
Proof.
  intro H. apply scan_In_pair in H as [pre [A [B [suf [Hg He]]]]].
  apply pair_event_some in He as [_ [fa [fb (_ & _ & _ & _ & ->)]]].
  exists A, B. split; [|split; [|split; reflexivity]].
  - rewrite Hg. apply in_or_app. right. now left.
  - destruct pre as [|p pre']; simpl in Hg; injection Hg as -> ->.
    + now left.
    + apply in_or_app. right. right. now left.
Qed.

Lemma scan_sorted (c : Z) (g : list Reading) :
  StronglySorted (fun a b => timestamp a <= timestamp b) g ->
  StronglySorted (fun e1 e2 => ev_timestamp e1 <= ev_timestamp e2) (scan c g).
Proof.
  induction g as [|x tl IH]; intro H; [constructor|].
  destruct tl as [|y tl']; [constructor|].
  change (scan c (x :: y :: tl'))
    with (option_list (pair_event c x y) ++ scan c (y :: tl')).
  apply StronglySorted_inv in H as [Hs _].
  apply SS_app; [|now apply IH|].
  - destruct (pair_event c x y); repeat constructor.
  - intros a b Ha Hb.
    destruct (pair_event c x y) as [ea|] eqn:E; [|destruct Ha].
    destruct Ha as [<-|[]].
    apply pair_event_some in E as [_ [fa [fb (_ & _ & _ & _ & ->)]]]. simpl.
    apply scan_timestamp in Hb as [_ [B (_ & HB & _ & ->)]].
    apply StronglySorted_inv in Hs as [_ Hf]. rewrite Forall_forall in Hf.
    now apply Hf.
Qed.

Lemma unique_keys_sorted (l : list Z) : StronglySorted Z.lt (unique_keys l).
Proof.
  induction l as [|x tl IH]; [constructor|]. now apply insert_key_sorted.
Qed.

Lemma scan_length (c : Z) (g : list Reading) :
  (List.length (scan c g) <= pred (List.length g))%nat.
Proof.
  induction g as [|x tl IH]; [simpl; lia|].
  destruct tl as [|y tl']; [simpl; lia|].
  change (scan c (x :: y :: tl'))
    with (option_list (pair_event c x y) ++ scan c (y :: tl')).
  rewrite length_app. simpl in IH |- *.
  destruct (pair_event c x y); simpl; lia.
Qed.

Lemma filter_length_disjoint {T} (p q : T -> bool) (l : list T) :
  (forall x, p x = true -> q x = false) ->
  (List.length (filter p l) + List.length (filter q l) =
   List.length (filter (fun x => p x || q x) l))%nat.
Proof.
  intro H. induction l as [|x tl IH]; [reflexivity|]. simpl.
  destruct (p x) eqn:Ep; [rewrite (H x Ep)|]; destruct (q x); simpl; lia.
Qed.

Lemma group_lengths (df : list Reading) (keys : list Z) :
  NoDup keys ->
  fold_right (fun c acc => (List.length (group df c) + acc)%nat) 0%nat keys =
  List.length (filter (fun r => existsb (Z.eqb (car_id r)) keys) df).
Proof.
  induction keys as [|k tl IH]; intro Hnd.
  - simpl. induction df; simpl; auto.
  - inversion Hnd as [|? ? Hk Htl]; subst. simpl. rewrite IH by assumption.
    unfold group. apply filter_length_disjoint.
    intros r Hr. apply Z.eqb_eq in Hr. rewrite Hr.
    apply Bool.not_true_iff_false. intro Hex.
    apply existsb_exists in Hex as [z [Hz Hz']]. apply Z.eqb_eq in Hz'. subst. contradiction.
Qed.

Lemma filter_all {T} (p : T -> bool) (l : list T) :
  (forall x, In x l -> p x = true) -> filter p l = l.
Proof.
  induction l as [|x tl IH]; simpl; intro H; [reflexivity|].
  rewrite H by auto. f_equal. auto.
Qed.

End BatchOrderFacts.

Import BatchOrderFacts.

(** The events of the batch derivation come out ordered by car id (the
    [groupby] key order) and, within one car, by timestamp. *)
Theorem batch_events_ordered (df : list Batch.Reading) :
  StronglySorted ev_le (Batch.calculate_consumption_from_readings df).
Proof.
  unfold Batch.calculate_consumption_from_readings.
  assert (Hk : StronglySorted Z.lt (Batch.group_keys df)) by apply unique_keys_sorted.
  induction Hk as [|k tl Hs IH Hf]; simpl; [constructor|].
  apply SS_app; [|exact IH|].
  - assert (Hg := scan_sorted k (Batch.sorted_group df k) (sort_by_sorted _ _)).
    assert (Hc : forall e, In e (Batch.scan k (Batch.sorted_group df k)) ->
                           Batch.ev_car_id e = k) by (intros e; apply scan_car_id).
    induction Hg as [|a l Hl IHl Hfa]; constructor.
    + apply IHl. intros e He. apply Hc. now right.
    + apply Forall_forall. rewrite Forall_forall in Hfa. intros b Hb.
      right. split; [rewrite (Hc a), (Hc b); simpl; auto|auto].
  - intros a b Ha Hb. apply in_flat_map in Hb as [c [Hc Hb]].
    apply scan_car_id in Ha. apply scan_car_id in Hb.
    rewrite Forall_forall in Hf. left. rewrite Ha, Hb. auto.
Qed.

(** Every event of the batch derivation compares a reading with a later
    or simultaneous one: the time difference is never negative. *)
Theorem batch_time_diff_nonnegative (df : list Batch.Reading) :
  Forall (fun e => (Batch.prev_timestamp e <= Batch.ev_timestamp e)%Z /\
                   (0 <= Batch.time_diff_minutes e)%Q)
    (Batch.calculate_consumption_from_readings df).
Proof.
  apply Forall_forall. intros e He.
  apply BatchFacts.calc_event_pair in He as [pre [A [B [suf [Hg He]]]]].
  assert (Hab : (Batch.timestamp A <= Batch.timestamp B)%Z).
  { apply (SS_adjacent (fun a b => Batch.timestamp a <= Batch.timestamp b) pre suf).
    rewrite <- Hg. apply sort_by_sorted. }
  apply BatchFacts.pair_event_some in He as [_ [fa [fb (_ & _ & _ & _ & ->)]]].
  simpl. split; [exact Hab|].
  unfold Qdiv, Qle. simpl. lia.
Qed.

(** A car with [n] readings gives at most [n - 1] events: the number of
    events plus the number of cars is at most the number of readings. *)
Theorem batch_event_count_bound (df : list Batch.Reading) :
  (List.length (Batch.calculate_consumption_from_readings df)
   + List.length (Batch.group_keys df) <= List.length df)%nat.
Proof.
  assert (Hsum : fold_right (fun c acc => (List.length (Batch.group df c) + acc)%nat) 0%nat
                   (Batch.group_keys df) = List.length df).
  { rewrite group_lengths by apply unique_keys_NoDup. f_equal. apply filter_all.
    intros r Hr. apply existsb_exists. exists (Batch.car_id r). split; [|apply Z.eqb_refl].
    apply BatchFacts.group_keys_In. eauto. }
  rewrite <- Hsum. unfold Batch.calculate_consumption_from_readings.
  assert (Hne : forall c, In c (Batch.group_keys df) -> Batch.group df c <> []).
  { intros c Hc Hnil. apply BatchFacts.group_keys_In in Hc as [r [Hr Hrc]].
    assert (Hin : In r (Batch.group df c))
      by (unfold Batch.group; apply filter_In; split; [exact Hr|now apply Z.eqb_eq]).
    rewrite Hnil in Hin. destruct Hin. }
  clear Hsum. induction (Batch.group_keys df) as [|k tl IH]; simpl; [lia|].
  rewrite length_app.
  assert (Hl := scan_length k (Batch.sorted_group df k)).
  assert (Hp : List.length (Batch.sorted_group df k) = List.length (Batch.group df k))
    by apply Permutation_length, sort_by_perm.
  assert (Hk : (0 < List.length (Batch.group df k))%nat).
  { assert (Hk : Batch.group df k <> []) by (apply Hne; now left).
    destruct (Batch.group df k); [contradiction|simpl; lia]. }
  assert (IH' := IH (fun c Hc => Hne c (or_intror Hc))). lia.
Qed.

Module DbOrderFacts.
Import Db DbFacts.

Lemma db_scan_In_pair (c : Z) (g : list DbRow) (e : DbEvent) :
  In e (db_scan c g) ->
  exists pre A B suf, g = pre ++ A :: B :: suf /\ db_pair_event c A B = Some e.
Proof.
  induction g as [|x tl IH]; simpl; [tauto|].
  destruct tl as [|y tl']; [simpl; tauto|].
  intro H. apply in_app_or in H as [H|H].
  - destruct (db_pair_event c x y) eqn:E; simpl in H; [|tauto].
    destruct H as [<-|[]]. exists [], x, y, tl'. auto.
  - destruct (IH H) as [pre [A [B [suf [Hg He]]]]].
    exists (x :: pre), A, B, suf. rewrite Hg. auto.
Qed.

Lemma db_pair_event_ts (c : Z) (A B : DbRow) (e : DbEvent) :
  db_pair_event c A B = Some e -> de_prev_ts e = db_timestamp A /\ de_curr_ts e = db_timestamp B.
Proof.
  unfold db_pair_event.
  destruct (db_available A && Qltb (db_fuel B) (db_fuel A)); [|discriminate].
  destruct (Qltb threshold _); [|discriminate].
  intro H. injection H as <-. auto.
Qed.

Lemma db_scan_timestamp (c : Z) (x : DbRow) (l : list DbRow) (e : DbEvent) :
  In e (db_scan c (x :: l)) -> exists B, In B l /\ de_curr_ts e = db_timestamp B.
Proof.
  intro H. apply db_scan_In_pair in H as [pre [A [B [suf [Hg He]]]]].
  apply db_pair_event_ts in He as [_ He]. exists B. split; [|exact He].
  destruct pre as [|p pre']; simpl in Hg; injection Hg as -> ->.
  - now left.
  - apply in_or_app. right. right. now left.
Qed.

Lemma db_scan_sorted (c : Z) (g : list DbRow) :
  StronglySorted (fun a b => db_timestamp a <= db_timestamp b) g ->
  StronglySorted (fun e1 e2 => de_curr_ts e1 <= de_curr_ts e2) (db_scan c g).
Proof.
  induction g as [|x tl IH]; intro H; [constructor|].
  destruct tl as [|y tl']; [constructor|].
  change (db_scan c (x :: y :: tl'))
    with (Batch.option_list (db_pair_event c x y) ++ db_scan c (y :: tl')).
  apply StronglySorted_inv in H as [Hs _].
  apply SS_app; [|now apply IH|].
  - destruct (db_pair_event c x y); repeat constructor.
  - intros a b Ha Hb.
    destruct (db_pair_event c x y) as [ea|] eqn:E; [|destruct Ha].
    destruct Ha as [<-|[]].
    apply db_pair_event_ts in E as [_ ->].
    apply db_scan_timestamp in Hb as [B [HB ->]].
    apply StronglySorted_inv in Hs as [_ Hf]. rewrite Forall_forall in Hf.
    now apply Hf.
Qed.

Lemma SS_filter {T} (R : T -> T -> Prop) (p : T -> bool) (l : list T) :
  StronglySorted R l -> StronglySorted R (filter p l).
Proof.
  induction 1 as [|a l Hs IH Hf]; simpl; [constructor|].
  destruct (p a); [|exact IH]. constructor; [exact IH|].
  apply Forall_forall. rewrite Forall_forall in Hf. intros x Hx.
  apply filter_In in Hx as [Hx _]. auto.
Qed.

Lemma SS_firstn {T} (R : T -> T -> Prop) (n : nat) (l : list T) :
  StronglySorted R l -> StronglySorted R (firstn n l).
Proof.
  intro H. revert n. induction H as [|a l Hs IH Hf]; intros [|n]; simpl; try constructor.
  - apply IH.
  - apply Forall_forall. rewrite Forall_forall in Hf. intros x Hx.
    apply Hf. rewrite <- (firstn_skipn n l). apply in_or_app. now left.
Qed.

End DbOrderFacts.

Import DbOrderFacts.

(** The events of read_database.py come out ordered by car id and,
    within one car, by the time of the later reading, and each spans a
    forward time interval. *)
Theorem db_events_ordered (db : list Db.DbRow) :
  StronglySorted
    (fun e1 e2 => (Db.de_car_id e1 < Db.de_car_id e2)%Z \/
                  (Db.de_car_id e1 = Db.de_car_id e2 /\ (Db.de_curr_ts e1 <= Db.de_curr_ts e2)%Z))
    (Db.calculate_fuel_consumption db) /\
  Forall (fun e => (Db.de_prev_ts e <= Db.de_curr_ts e)%Z) (Db.calculate_fuel_consumption db).
Proof.
  unfold Db.calculate_fuel_consumption. split.
  - assert (Hk : StronglySorted Z.lt (map fst (firstn 10 (Db.cars_with_data db)))).
    { rewrite <- firstn_map. apply SS_firstn. unfold Db.cars_with_data.
      rewrite DbFacts.map_fst_filter_pairs. apply SS_filter, unique_keys_sorted. }
    induction (firstn 10 (Db.cars_with_data db)) as [|p ps IH]; simpl; [constructor|].
    apply StronglySorted_inv in Hk as [Hk Hf].
    apply SS_app; [|exact (IH Hk)|].
    + assert (Hg := db_scan_sorted (fst p) (Db.readings db (fst p)) (sort_by_sorted _ _)).
      assert (Hc : forall e, In e (Db.db_scan (fst p) (Db.readings db (fst p))) ->
                             Db.de_car_id e = fst p) by (intros e; apply DbFacts.db_scan_car_id).
      induction Hg as [|a l Hl IHl Hfa]; constructor.
      * apply IHl. intros e He. apply Hc. now right.
      * apply Forall_forall. rewrite Forall_forall in Hfa. intros b Hb.
        right. split; [rewrite (Hc a), (Hc b); simpl; auto|auto].
    + intros a b Ha Hb. apply in_flat_map in Hb as [q [Hq Hb]].
      apply DbFacts.db_scan_car_id in Ha. apply DbFacts.db_scan_car_id in Hb.
      rewrite Forall_forall in Hf. left. rewrite Ha, Hb. apply Hf. now apply in_map.
  - apply Forall_forall. intros e He. apply in_flat_map in He as [p [_ He]].
    apply db_scan_In_pair in He as [pre [A [B [suf [Hg He]]]]].
    apply db_pair_event_ts in He as [-> ->].
    apply (SS_adjacent (fun a b => Db.db_timestamp a <= Db.db_timestamp b) pre suf).
    rewrite <- Hg. apply sort_by_sorted.
Qed.
